(** * OpenReviewAC: a shallow embedding of the report scripts

    The development follows the Python sources:
    - [histogram_scores.py]: the disk cache ([_get_cache_path], [_load_cache],
      [_save_cache]), the paginated fetch ([get_all_submissions]), the
      area-chair resolution ([get_ac_assigned_submissions]), the score
      extraction ([extract_average_scores]) and the bin selection of
      [generate_histogram];
    - [list_author_papers.py]: the same pagination loop, guarded by a
      [try]/[except];
    - [utils/gsheet.py]: [_write_headers] and [write_cells].

    Python exceptions are values of [Exn]; a statement sequence that may raise
    and that reads or writes the outside world is a function of the monad [M].
    Numbers that Python holds as floats (review scores) are exact rationals
    here. *)

From Stdlib Require Import ZArith QArith Qround Lqa String Ascii List Lia DecimalString.
From stdpp Require Import base option list gmap strings sorting.

Local Open Scope string_scope.
Local Open Scope list_scope.

(** ** Python exceptions, results and the state monad *)

(** The exception classes the scripts meet.  All of them derive from Python's
    [Exception], so a bare [except Exception] catches each one. *)
Inductive Exn : Type :=
  | ValueError
  | KeyError
  | AttributeError
  | IndexError
  | TypeError
  | ZeroDivisionError
  | OSError
  | PicklingError
  | UnpicklingError
  | EOFError
  | StopIteration
  | OpenReviewException.

Definition Exn_eqb (a b : Exn) : bool :=
  match a, b with
  | ValueError, ValueError | KeyError, KeyError
  | AttributeError, AttributeError | IndexError, IndexError
  | TypeError, TypeError | ZeroDivisionError, ZeroDivisionError
  | OSError, OSError | PicklingError, PicklingError
  | UnpicklingError, UnpicklingError | EOFError, EOFError
  | StopIteration, StopIteration
  | OpenReviewException, OpenReviewException => true
  | _, _ => false
  end.

Inductive Res (A : Type) : Type :=
  | Ok (a : A)
  | Raise (e : Exn).
Arguments Ok {A} a.
Arguments Raise {A} e.

(** [M S A]: a computation over a mutable world [S] that returns an [A] or
    raises; the world survives a raise (what was logged stays logged). *)
Definition M (S A : Type) : Type := S -> Res A * S.

Definition ret {S A} (a : A) : M S A := fun s => (Ok a, s).
Definition raise {S A} (e : Exn) : M S A := fun s => (Raise e, s).
Definition bind {S A B} (c : M S A) (k : A -> M S B) : M S B :=
  fun s => match c s with
           | (Ok a, s') => k a s'
           | (Raise e, s') => (Raise e, s')
           end.
Definition lift {S A} (r : Res A) : M S A := fun s => (r, s).
Definition get {S} : M S S := fun s => (Ok s, s).
Definition modify {S} (f : S -> S) : M S unit := fun s => (Ok tt, f s).

(** [try: c except p: h]: run [c]; an exception on which [p] holds is handed
    to the handler, any other one propagates. *)
Definition try_except {S A} (c : M S A) (p : Exn -> bool) (h : Exn -> M S A)
  : M S A :=
  fun s => match c s with
           | (Ok a, s') => (Ok a, s')
           | (Raise e, s') => if p e then h e s' else (Raise e, s')
           end.

(** [except Exception] *)
Definition any_Exception (e : Exn) : bool := true.

Declare Scope py_scope.
Delimit Scope py_scope with py.
Notation "x <~ c ;; k" := (bind c (fun x => k))
  (at level 100, c at next level, right associativity) : py_scope.
Notation "c ;;; k" := (bind c (fun _ => k))
  (at level 100, right associativity) : py_scope.
Local Open Scope py_scope.

(** ** Logging *)

Inductive Level : Type := DEBUG | INFO | WARNING | ERROR.

(** A log record: the level and the format string of the call. *)
Record LogRecord : Type := Log { level : Level; message : string }.

(** ** Byte strings and the local disk *)

(** A disk: the files that exist, by path, and the paths on which [open]
    fails with an [OSError] (no permission, read-only medium). *)
Record Disk : Type := {
  files : gmap string string;
  denied : gset string
}.

Definition path_exists (d : Disk) (p : string) : bool :=
  match files d !! p with Some _ => true | None => false end.

(** [open(p, 'rb').read()] *)
Definition read_file (d : Disk) (p : string) : Res string :=
  if decide (p ∈ denied d) then Raise OSError
  else match files d !! p with
       | Some b => Ok b
       | None => Raise OSError
       end.

(** [open(p, 'wb')]: creates the file or truncates it. *)
Definition open_wb (d : Disk) (p : string) : Res Disk :=
  if decide (p ∈ denied d) then Raise OSError
  else Ok {| files := <[p := ""]> (files d); denied := denied d |}.

(** What a write through the open handle leaves in the file. *)
Definition write_file (d : Disk) (p : string) (b : string) : Disk :=
  {| files := <[p := b]> (files d); denied := denied d |}.

(** ** Python strings *)

Module Str.

(** [s.startswith(p)] *)
Fixpoint startswith (p s : string) : bool :=
  match p, s with
  | EmptyString, _ => true
  | String a p', String b s' => Ascii.eqb a b && startswith p' s'
  | String _ _, EmptyString => false
  end.

(** [sub in s] *)
Fixpoint contains (sub s : string) : bool :=
  startswith sub s ||
  match s with
  | EmptyString => false
  | String _ s' => contains sub s'
  end.

Fixpoint rev_string (s acc : string) : string :=
  match s with
  | EmptyString => acc
  | String c s' => rev_string s' (String c acc)
  end.

(** [s.endswith(p)] *)
Definition endswith (p s : string) : bool :=
  startswith (rev_string p "") (rev_string s "").

(** [s.split(sep)] for a separator that is not empty: the pieces between the
    occurrences of [sep], which are found left to right and do not overlap.
    [skip] counts the characters of a separator still to be passed over and
    [cur] holds the piece being read, last character first. *)
Fixpoint split_go (sep s : string) (skip : nat) (cur : string) : list string :=
  match s with
  | EmptyString => [rev_string cur ""]
  | String c s' =>
      match skip with
      | S k => split_go sep s' k cur
      | O =>
          if startswith sep s
          then rev_string cur "" :: split_go sep s' (String.length sep - 1) ""
          else split_go sep s' 0 (String c cur)
      end
  end.

Definition split (sep s : string) : list string := split_go sep s 0 "".

(** Python's white space, as far as ASCII goes. *)
Definition is_space (c : ascii) : bool :=
  let n := nat_of_ascii c in
  ((9 <=? n) && (n <=? 13) || (28 <=? n) && (n <=? 32))%nat.

Definition is_digit (c : ascii) : bool :=
  let n := nat_of_ascii c in ((48 <=? n) && (n <=? 57))%nat.

Fixpoint lstrip (s : string) : string :=
  match s with
  | String c s' => if is_space c then lstrip s' else s
  | EmptyString => EmptyString
  end.

Definition strip (s : string) : string :=
  rev_string (lstrip (rev_string (lstrip s) "")) "".

(** The digits of a decimal literal: underscores are allowed one at a time
    and between digits only.  [sep] tells that a digit has to come next. *)
Fixpoint digits (s : string) (acc : Z) (sep : bool) : option Z :=
  match s with
  | EmptyString => if sep then None else Some acc
  | String c s' =>
      if is_digit c
      then digits s' (10 * acc + (Z.of_nat (nat_of_ascii c) - 48))%Z false
      else if Ascii.eqb c "_"
           then (if sep then None else digits s' acc true)
           else None
  end.

(** [int(s)] in base ten; [None] stands for the [ValueError]. *)
Definition int (s : string) : option Z :=
  match strip s with
  | String "-" s' => Z.opp <$> digits s' 0 true
  | String "+" s' => digits s' 0 true
  | s' => digits s' 0 true
  end.

(** [str(n)] for an integer. *)
Definition of_Z (n : Z) : string :=
  DecimalString.NilEmpty.string_of_int (Z.to_int n).

(** [l.index(x)]; [None] stands for the [ValueError]. *)
Fixpoint index (x : string) (l : list string) : option nat :=
  match l with
  | [] => None
  | y :: l' => if String.eqb y x then Some 0%nat else S <$> index x l'
  end.

(** [x in l] for a list of strings. *)
Definition mem (x : string) (l : list string) : bool :=
  existsb (String.eqb x) l.

(** *** What the string operations mean

    The definitions below do not come from the scripts: they say in terms of
    concatenation what "occurs in", "first occurrence" and "the segment
    between ['/Submission'] and the next ['/']" mean, and the source's
    operations are compared with them. *)

(** [sub] occurs in [s]. *)
Definition occurs (sub s : string) : Prop :=
  exists pre post, s = pre +:+ sub +:+ post.

(** [s] is [pre], then the first occurrence of [sub], then [post]. *)
Definition first_occurrence (sub s pre post : string) : Prop :=
  s = pre +:+ sub +:+ post /\
  forall pre' post', s = pre' +:+ sub +:+ post' ->
                     (String.length pre <= String.length pre')%nat.

(** [seg] is the segment of the group id [g] between its first
    ['/Submission'] and the next ['/'] (or the end of [g]). *)
Definition is_segment (g seg : string) : Prop :=
  exists pre post,
    first_occurrence "/Submission" g pre (seg +:+ post) /\
    ~ occurs "/" seg /\
    (post = "" \/ exists post', post = "/" +:+ post').

(** [s[n:]] *)
Fixpoint sdrop (n : nat) (s : string) : string :=
  match n, s with
  | O, _ => s
  | S n', String _ s' => sdrop n' s'
  | S _, EmptyString => EmptyString
  end.

(** The text before the first occurrence of [sep] in [s]: all of [s] when
    [sep] does not occur. *)
Fixpoint before (sep s : string) : string :=
  if startswith sep s then EmptyString
  else match s with
       | EmptyString => EmptyString
       | String c s' => String c (before sep s')
       end.

(** The text after the first occurrence of [sep] in [s], if [sep] occurs. *)
Fixpoint after (sep s : string) : option string :=
  if startswith sep s then Some (sdrop (String.length sep) s)
  else match s with
       | EmptyString => None
       | String _ s' => after sep s'
       end.

End Str.

(** ** The review API and the world of [histogram_scores.py] *)

(** A note of the API, a submission included: the fields the scripts read.
    [content] maps a field name to the string under its ['value'] key. *)
Record Note : Type := {
  number : Z;
  forum : string;
  invitations : list string;
  readers : list string;
  content : list (string * string)
}.

(** [note.content.get(field, {}).get('value', default)] *)
Fixpoint content_value (c : list (string * string)) (field default : string)
  : string :=
  match c with
  | [] => default
  | (k, v) :: c' => if String.eqb k field then v else content_value c' field default
  end.

(** The calls made on [openreview_client]. *)
Inductive Request : Type :=
  | GetNotesPage (invitation : string) (limit offset : nat)
  | GetNotesNumber (invitation : string) (num : Z)
  | GetNotesForum (forum_id : string)
  | GetGroup (group_id : string)
  | GetProfile
  | GetGroups (member : string).

(** The API client, an external collaborator: each call answers or raises.
    [get_group] answers with the [members] of the group, [get_profile] with
    the [id] of the profile, [get_groups] with the groups' ids. *)
Record Client : Type := {
  get_notes_page : string -> nat -> nat -> Res (list Note);
  get_notes_number : string -> Z -> Res (list Note);
  get_notes_forum : string -> Res (list Note);
  get_group : string -> Res (list string);
  get_profile : Res string;
  get_groups : string -> Res (list string)
}.

Record World : Type := {
  disk : Disk;
  logs : list LogRecord;
  calls : list Request
}.

Definition logging (lv : Level) (msg : string) : M World unit :=
  modify (fun w => {| disk := disk w;
                      logs := logs w ++ [Log lv msg];
                      calls := calls w |}).

Definition set_disk (d : Disk) : M World unit :=
  modify (fun w => {| disk := d; logs := logs w; calls := calls w |}).

(** An API call: it is recorded, then it answers or raises. *)
Definition api {A} (rq : Request) (answer : Res A) : M World A :=
  modify (fun w => {| disk := disk w; logs := logs w;
                      calls := calls w ++ [rq] |}) ;;;
  lift answer.

(** [pickle], an external library.  [pickle_dump v] gives the bytes that
    reach the file and the exception raised on the way, if any;
    [pickle_load] reads a value back or raises. *)
Class Pickle (V : Type) : Type := {
  pickle_dump : V -> string * option Exn;
  pickle_load : string -> Res V
}.

(** [hashlib.md5(s.encode()).hexdigest()] and the built-in [hash] of a tuple
    of integers, both external. *)
Class Hashing : Type := {
  md5_hexdigest : string -> string;
  hash_tuple : list Z -> Z
}.

(** The attributes of a [ScoreHistogramGenerator]. *)
Record Self : Type := {
  conference_id : string;
  openreview_client : Client;
  use_cache : bool;
  refresh_cache : bool;
  cache_dir : string
}.

(** The entries of [CONFERENCE_INFO] that the score extraction reads; an
    extractor that the configuration does not define is [None]. *)
Record ConferenceInfo : Type := {
  RATING_EXTRACTOR : option (Note -> option Q);
  FINAL_RATING_EXTRACTOR : option (Note -> option Q)
}.

Section Cache.
Context `{Hashing} {V : Type} `{Pickle V}.
Variable self : Self.

Definition _get_cache_path (cache_key : string) : string :=
  let cache_hash := md5_hexdigest cache_key in
  cache_dir self +:+ "/" +:+ cache_hash +:+ ".pkl".

(** The result is [None] where Python returns [None]. *)
Definition _load_cache (cache_key : string) : M World (option V) :=
  if negb (use_cache self) || refresh_cache self then ret None
  else
    let cache_path := _get_cache_path cache_key in
    w <~ get ;;
    if path_exists (disk w) cache_path then
      try_except
        (logging INFO "Loading data from cache: %s" ;;;
         w <~ get ;;
         b <~ lift (read_file (disk w) cache_path) ;;
         v <~ lift (pickle_load b) ;;
         ret (Some v))
        any_Exception
        (fun e => logging WARNING "Failed to load cache: %s" ;;; ret None)
    else ret None.

Definition _save_cache (cache_key : string) (data : V) : M World unit :=
  if negb (use_cache self) then ret tt
  else
    let cache_path := _get_cache_path cache_key in
    try_except
      (logging INFO "Saving data to cache: %s" ;;;
       w <~ get ;;
       d <~ lift (open_wb (disk w) cache_path) ;;
       set_disk d ;;;
       let (b, r) := pickle_dump data in
       set_disk (write_file d cache_path b) ;;;
       match r with
       | None => ret tt
       | Some e => raise e
       end)
      any_Exception
      (fun e => logging WARNING "Failed to save cache: %s" ;;; ret tt).

End Cache.

Section HistogramScores.
Context `{Hashing} `{Pickle (list Note)} `{Pickle (list Q)}.
Variable self : Self.

Definition submission_invitation : string :=
  conference_id self +:+ "/-/Submission".

(** The [while True] loop of [get_all_submissions].  The loop is bounded
    by [fuel] iterations; [None] tells that the bound was reached before a
    [break]. *)
Fixpoint fetch_loop (batch_size : nat) (fuel : nat) (offset : nat)
    (all_submissions : list Note) : M World (option (list Note)) :=
  match fuel with
  | O => ret None
  | S fuel' =>
      submissions_batch <~
        api (GetNotesPage submission_invitation batch_size offset)
            (get_notes_page (openreview_client self)
               submission_invitation batch_size offset) ;;
      match submissions_batch with
      | [] => ret (Some all_submissions)
      | _ :: _ =>
          let all_submissions := all_submissions ++ submissions_batch in
          logging INFO "Retrieved %d submissions (total: %d)" ;;;
          let offset := (offset + batch_size)%nat in
          if (length submissions_batch <? batch_size)%nat
          then ret (Some all_submissions)
          else fetch_loop batch_size fuel' offset all_submissions
      end
  end.

Definition get_all_submissions_with (batch_size fuel : nat)
  : M World (option (list Note)) :=
  let cache_key := "all_submissions_" +:+ conference_id self in
  cached_data <~ _load_cache self cache_key ;;
  match cached_data with
  | Some data =>
      logging INFO "Loaded %d submissions from cache" ;;;
      ret (Some data)
  | None =>
      logging INFO "Retrieving all submissions for %s" ;;;
      r <~ fetch_loop batch_size fuel 0 [] ;;
      match r with
      | None => ret None
      | Some all_submissions =>
          logging INFO "Found %d total submissions" ;;;
          _save_cache self cache_key all_submissions ;;;
          ret (Some all_submissions)
      end
  end.

Definition get_all_submissions (fuel : nat) : M World (option (list Note)) :=
  get_all_submissions_with 1000 fuel.

(** The same loop in [get_author_papers_list] of [list_author_papers.py]:
    its body runs under [try], and an exception ends the loop with what
    was gathered. *)
Fixpoint author_fetch_loop (batch_size : nat) (fuel : nat) (offset : nat)
    (all_submissions : list Note) : M World (option (list Note)) :=
  match fuel with
  | O => ret None
  | S fuel' =>
      (* [inl]: the loop goes on with the new lists; [inr]: [break] *)
      step <~ try_except
        (submissions_batch <~
           api (GetNotesPage submission_invitation batch_size offset)
               (get_notes_page (openreview_client self)
                  submission_invitation batch_size offset) ;;
         match submissions_batch with
         | [] => ret (inr all_submissions)
         | _ :: _ =>
             let all_submissions := all_submissions ++ submissions_batch in
             logging INFO "Retrieved %d submissions (total: %d)" ;;;
             let offset := (offset + batch_size)%nat in
             if (length submissions_batch <? batch_size)%nat
             then ret (inr all_submissions)
             else ret (inl (offset, all_submissions))
         end)
        any_Exception
        (fun e =>
           logging ERROR "Error retrieving submissions batch at offset %d: %s" ;;;
           ret (inr all_submissions)) ;;
      match step with
      | inr all_submissions => ret (Some all_submissions)
      | inl (offset, all_submissions) =>
          author_fetch_loop batch_size fuel' offset all_submissions
      end
  end.

(** *** Area-chair assignment *)

(** The state of the loop over [ac_groups]: [assigned_paper_numbers],
    [specific_ac_groups], [pool_ac_groups]. *)
Definition GroupState : Type := gset Z * list string * list string.

Definition classify_group (st : GroupState) (ac_group : string) : GroupState :=
  let '(assigned_paper_numbers, specific_ac_groups, pool_ac_groups) := st in
  if Str.contains (conference_id self) ac_group
     && Str.contains "/Submission" ac_group
     && Str.contains "/Area_Chair_" ac_group
  then
    let specific_ac_groups := specific_ac_groups ++ [ac_group] in
    let parts := Str.split "/Submission" ac_group in
    if (1 <? length parts)%nat then
      let paper_num_str :=
        hd "" (Str.split "/" (nth 1 parts "")) in
      match Str.int paper_num_str with
      | Some n =>
          ({[n]} ∪ assigned_paper_numbers, specific_ac_groups, pool_ac_groups)
      | None => (assigned_paper_numbers, specific_ac_groups, pool_ac_groups)
      end
    else (assigned_paper_numbers, specific_ac_groups, pool_ac_groups)
  else if Str.contains (conference_id self) ac_group
          && Str.contains "/Submission" ac_group
          && Str.endswith "/Area_Chairs" ac_group
  then (assigned_paper_numbers, specific_ac_groups, pool_ac_groups ++ [ac_group])
  else st.

Definition classify_groups (ac_groups : list string) : GroupState :=
  fold_left classify_group ac_groups (∅, [], []).

(** [except (ValueError, KeyError, AttributeError)] *)
Definition lookup_errors (e : Exn) : bool :=
  match e with
  | ValueError | KeyError | AttributeError => true
  | _ => false
  end.

(** The loop that fetches the assigned papers one by one. *)
Fixpoint fetch_assigned (sorted_paper_nums : list Z) (submissions : list Note)
  : M World (list Note) :=
  match sorted_paper_nums with
  | [] => ret submissions
  | paper_num :: rest =>
      submissions <~ try_except
        (paper_notes <~
           api (GetNotesNumber submission_invitation paper_num)
               (get_notes_number (openreview_client self)
                  submission_invitation paper_num) ;;
         match paper_notes with
         | [] => ret submissions
         | _ :: _ => ret (submissions ++ paper_notes)
         end)
        lookup_errors
        (fun e => logging WARNING "Failed to retrieve paper %d: %s" ;;;
                  ret submissions) ;;
      fetch_assigned rest submissions
  end.

(** The filter of the fall-back: the paper's own area-chair group and one of
    the user's pool groups are among the paper's readers. *)
Definition pool_member (pool_ac_groups : list string) (paper : Note) : bool :=
  let ac_group_id_for_paper :=
    conference_id self +:+ "/Submission" +:+ Str.of_Z (number paper)
    +:+ "/Area_Chairs" in
  Str.mem ac_group_id_for_paper (readers paper)
  && existsb (fun ac_group => Str.mem ac_group (readers paper)) pool_ac_groups.

(** Strategy (a): fetch the assigned papers, in the order of their numbers. *)
Definition specific_assignment (assigned_paper_numbers : gset Z)
  : M World (option (list Note)) :=
  logging INFO "Found %d specific AC assignment groups" ;;;
  let sorted_paper_nums := merge_sort Z.le (elements assigned_paper_numbers) in
  submissions <~ fetch_assigned sorted_paper_nums [] ;;
  logging INFO "Retrieved %d assigned submissions" ;;;
  ret (Some submissions).

(** Strategy (b): retrieve all submissions and filter them by their readers. *)
Definition readers_fallback (fuel : nat) (pool_ac_groups : list string)
  : M World (option (list Note)) :=
  logging INFO "Using paper.readers method (legacy)" ;;;
  r <~ get_all_submissions fuel ;;
  match r with
  | None => ret None
  | Some all_submissions =>
      let submissions :=
        List.filter (pool_member pool_ac_groups) all_submissions in
      logging INFO "Found %d AC-assigned submissions" ;;;
      ret (Some submissions)
  end.

(** From the classification of [ac_groups] to the submissions: the
    [if use_specific_assignment: ... else: ...] of the source. *)
Definition resolve_assigned (fuel : nat) (ac_groups : list string)
  : M World (option (list Note)) :=
  let '(assigned_paper_numbers, specific_ac_groups, pool_ac_groups) :=
    classify_groups ac_groups in
  let use_specific_assignment := (0 <? length specific_ac_groups)%nat in
  if use_specific_assignment
  then specific_assignment assigned_paper_numbers
  else readers_fallback fuel pool_ac_groups.

Definition get_ac_assigned_submissions (fuel : nat)
  : M World (option (list Note)) :=
  profile_id <~ api GetProfile (get_profile (openreview_client self)) ;;
  let cache_key :=
    "ac_submissions_" +:+ conference_id self +:+ "_" +:+ profile_id in
  cached_data <~ _load_cache self cache_key ;;
  match cached_data with
  | Some data =>
      logging INFO "Loaded %d AC-assigned submissions from cache" ;;;
      ret (Some data)
  | None =>
      logging INFO "Retrieving AC-assigned submissions" ;;;
      let ac_group_id := conference_id self +:+ "/Area_Chairs" in
      ac_group_list <~
        api (GetGroup ac_group_id) (get_group (openreview_client self) ac_group_id) ;;
      match ac_group_list with
      | [] =>
          logging WARNING "No AC information for %s." ;;;
          ret (Some [])
      | _ :: _ =>
          profile_id <~ api GetProfile (get_profile (openreview_client self)) ;;
          if negb (Str.mem profile_id ac_group_list) then
            logging WARNING "You are not an area chair for %s." ;;;
            ret (Some [])
          else
            let user_id := profile_id in
            logging INFO "Getting groups for user %s" ;;;
            user_groups <~
              api (GetGroups user_id) (get_groups (openreview_client self) user_id) ;;
            let ac_groups := List.filter (Str.contains "Area_Chair") user_groups in
            logging INFO "Found %d AC groups for user" ;;;
            r <~ resolve_assigned fuel ac_groups ;;
            match r with
            | None => ret None
            | Some submissions =>
                _save_cache self cache_key submissions ;;;
                ret (Some submissions)
            end
      end
  end.
End HistogramScores.

(** ** Score extraction and statistics *)

(** [sum(scores)]: from [0], left to right. *)
Definition py_sum (scores : list Q) : Q := fold_left Qplus scores 0%Q.

(** [a / n] for a count [n]: true division, which raises on a zero divisor. *)
Definition py_truediv (a : Q) (n : nat) : Res Q :=
  match n with
  | O => Raise ZeroDivisionError
  | S _ => Ok (a / inject_Z (Z.of_nat n))%Q
  end.

(** [[f(x) for x in l]] followed by [[s for s in scores if s is not None]] *)
Definition extract_scores (extractor : Note -> option Q) (reviews : list Note)
  : list Q :=
  omap id (map extractor reviews).

(** [str(b)] for a Boolean. *)
Definition str_bool (b : bool) : string := if b then "True" else "False".

Section ExtractAverageScores.
Context `{Hashing} `{Pickle (list Q)}.
Variable self : Self.
Variable CONFERENCE_INFO : ConferenceInfo.

Definition review_invitation (paper : Note) : string :=
  conference_id self +:+ "/Submission" +:+ Str.of_Z (number paper)
  +:+ "/-/Official_Review".

(** The variables the loop updates: [avg_scores], [papers_processed],
    [papers_with_scores]. *)
Definition ScoreState : Type := list Q * nat * nat.

(** The scores of the reviews under [score_type]: [inl] is the [continue]
    taken when the extractor is not configured. *)
Definition scores_of (score_type : string) (reviews : list Note)
  : M World (unit + list Q) :=
  if String.eqb score_type "initial" then
    match RATING_EXTRACTOR CONFERENCE_INFO with
    | None =>
        logging WARNING "RATING_EXTRACTOR not defined for %s" ;;;
        ret (inl tt)
    | Some extractor => ret (inr (extract_scores extractor reviews))
    end
  else if String.eqb score_type "final" then
    match FINAL_RATING_EXTRACTOR CONFERENCE_INFO with
    | None =>
        logging WARNING "FINAL_RATING_EXTRACTOR not defined for %s" ;;;
        ret (inl tt)
    | Some extractor => ret (inr (extract_scores extractor reviews))
    end
  else raise ValueError.

(** One turn of the [for paper in submissions] loop. *)
Definition score_paper (score_type : string) (exclude_withdrawn : bool)
    (st : ScoreState) (paper : Note) : M World ScoreState :=
  let '(avg_scores, papers_processed, papers_with_scores) := st in
  let papers_processed := S papers_processed in
  if exclude_withdrawn
     && Str.contains "Withdrawn" (content_value (content paper) "venue" "")
  then
    logging DEBUG "Skipping withdrawn paper %d" ;;;
    ret (avg_scores, papers_processed, papers_with_scores)
  else
    all_notes <~
      api (GetNotesForum (forum paper))
          (get_notes_forum (openreview_client self) (forum paper)) ;;
    let invitation_str := review_invitation paper in
    let reviews :=
      List.filter (fun note => Str.mem invitation_str (invitations note))
                  all_notes in
    match reviews with
    | [] =>
        logging DEBUG "Paper %d has no reviews" ;;;
        ret (avg_scores, papers_processed, papers_with_scores)
    | _ :: _ =>
        sc <~ scores_of score_type reviews ;;
        match sc with
        | inl _ => ret (avg_scores, papers_processed, papers_with_scores)
        | inr [] =>
            logging DEBUG "Paper %d has no valid scores" ;;;
            ret (avg_scores, papers_processed, papers_with_scores)
        | inr scores =>
            avg_score <~ lift (py_truediv (py_sum scores) (length scores)) ;;
            ret (avg_scores ++ [avg_score], papers_processed,
                 S papers_with_scores)
        end
    end.

Fixpoint score_papers (score_type : string) (exclude_withdrawn : bool)
    (submissions : list Note) (st : ScoreState) : M World ScoreState :=
  match submissions with
  | [] => ret st
  | paper :: rest =>
      st <~ score_paper score_type exclude_withdrawn st paper ;;
      score_papers score_type exclude_withdrawn rest st
  end.

Definition extract_average_scores (submissions : list Note)
    (score_type : string) (exclude_withdrawn : bool) : M World (list Q) :=
  let paper_numbers := merge_sort Z.le (map number submissions) in
  let cache_key :=
    "scores_" +:+ conference_id self +:+ "_" +:+ score_type +:+ "_"
    +:+ str_bool exclude_withdrawn +:+ "_"
    +:+ Str.of_Z (hash_tuple paper_numbers) in
  cached_data <~ _load_cache self cache_key ;;
  match cached_data with
  | Some data =>
      logging INFO "Loaded %d scores from cache" ;;;
      ret data
  | None =>
      logging INFO "Extracting %s scores from %d submissions" ;;;
      st <~ score_papers score_type exclude_withdrawn submissions ([], 0, 0)%nat ;;
      let '(avg_scores, papers_processed, papers_with_scores) := st in
      logging INFO "Extracted scores from %d papers (out of %d processed)" ;;;
      _save_cache self cache_key avg_scores ;;;
      ret avg_scores
  end.
End ExtractAverageScores.

(** *** Bin selection in [generate_histogram] *)





(** ** The spreadsheet synchroniser of [utils/gsheet.py] *)

Module GSheet.

(** A [GSheetWithHeader]: the local snapshot of the sheet, the cached header
    row [_headers], and the cell writes staged by [_set_buffer_cells] of the
    base class [GSheetManager] (an external package), which the
    [batch_sync_with_remote] decorator flushes after the operation. *)
Record Sheet : Type := {
  local_sheet_values : list (list string);
  _headers : option (list string);
  buffer : list (nat * nat * string);
  sheet_logs : list LogRecord
}.

Definition logging (lv : Level) (msg : string) : M Sheet unit :=
  modify (fun s => {| local_sheet_values := local_sheet_values s;
                      _headers := _headers s;
                      buffer := buffer s;
                      sheet_logs := sheet_logs s ++ [Log lv msg] |}).

(** Modelled from the spec: [_set_buffer_cells] of the external
    [GSheetManager], which "stages cell updates in an in-memory buffer" that
    is flushed once per decorated operation; the snapshot is not touched.
    [self._set_buffer_cells(python_row_idx=r, python_col_idx=c, value=v)] *)
Definition _set_buffer_cells (r c : nat) (v : string) : M Sheet unit :=
  modify (fun s => {| local_sheet_values := local_sheet_values s;
                      _headers := _headers s;
                      buffer := buffer s ++ [(r, c, v)];
                      sheet_logs := sheet_logs s |}).

(** The [headers] property: the first row of the snapshot is cached on the
    first read. *)
Definition headers : M Sheet (option (list string)) :=
  s <~ get ;;
  match _headers s, local_sheet_values s with
  | None, row0 :: _ =>
      modify (fun s => {| local_sheet_values := local_sheet_values s;
                          _headers := Some row0;
                          buffer := buffer s;
                          sheet_logs := sheet_logs s |}) ;;;
      ret (Some row0)
  | h, _ => ret h
  end.

(** Python's truth value of [self.headers]: neither [None] nor empty. *)
Definition truthy (h : option (list string)) : bool :=
  match h with
  | Some (_ :: _) => true
  | _ => false
  end.

(** [l[i] = x] on a list: out of range it raises. *)
Definition set_item {A} (l : list A) (i : nat) (x : A) : Res (list A) :=
  if (i <? length l)%nat then Ok (<[i := x]> l) else Raise IndexError.

(** [len(set(a).union(set(b)))] *)
Definition union_size (a b : list string) : nat :=
  size (list_to_set a ∪ list_to_set b : gset string).

(** [for header_idx, header_name in enumerate(self.headers):
       _headers[header_idx] = header_name] *)
Fixpoint copy_existing (existing : list string) (header_idx : nat)
    (hs : list (option string)) : Res (list (option string)) :=
  match existing with
  | [] => Ok hs
  | header_name :: rest =>
      match set_item hs header_idx (Some header_name) with
      | Ok hs' => copy_existing rest (S header_idx) hs'
      | Raise e => Raise e
      end
  end.

(** The loop over the written headers; its variables are [_headers] and
    [current_header_idx]. *)
Fixpoint write_loop (self_headers : option (list string)) (overwrite : bool)
    (start_row_idx : nat) (written : list string) (header_idx : nat)
    (hs : list (option string)) (current_header_idx : nat)
  : M Sheet (list (option string)) :=
  match written with
  | [] => ret hs
  | header_name :: rest =>
      if overwrite then
        _set_buffer_cells start_row_idx header_idx header_name ;;;
        hs <~ lift (set_item hs header_idx (Some header_name)) ;;
        write_loop self_headers overwrite start_row_idx rest (S header_idx)
                   hs current_header_idx
      else if truthy self_headers
              && Str.mem header_name (default [] self_headers)
      then
        match Str.index header_name (default [] self_headers) with
        | None => raise ValueError
        | Some header_original_idx =>
            hs <~ lift (set_item hs header_original_idx (Some header_name)) ;;
            write_loop self_headers overwrite start_row_idx rest (S header_idx)
                       hs current_header_idx
        end
      else
        _set_buffer_cells start_row_idx current_header_idx header_name ;;;
        hs <~ lift (set_item hs current_header_idx (Some header_name)) ;;
        write_loop self_headers overwrite start_row_idx rest (S header_idx)
                   hs (S current_header_idx)
  end.

(** [_write_headers(headers, start_row_idx, overwrite)].  [self.headers] is
    read once: the function changes neither [_headers] nor the snapshot, so
    the property answers the same on every later read ([headers_again]
    below).  The entries of the result are [None] where Python's list still
    holds the [None] it was created with. *)
Definition _write_headers (written : list string) (start_row_idx : nat)
    (overwrite : bool) : M Sheet (nat * list (option string)) :=
  let current_row_idx := start_row_idx in
  self_headers <~ headers ;;
  let current_header_idx :=
    if truthy self_headers then length (default [] self_headers) else 0%nat in
  hs <~ (if overwrite then ret (replicate (length written) None)
         else
           let hs :=
             replicate
               (union_size written
                  (if truthy self_headers then default [] self_headers else []))
               None in
           match self_headers with
           | None => raise TypeError
           | Some existing => lift (copy_existing existing 0 hs)
           end) ;;
  hs <~ write_loop self_headers overwrite start_row_idx written 0 hs
                   current_header_idx ;;
  let current_row_idx := S current_row_idx in
  logging DEBUG "Headers written starting at row {start_row_idx}" ;;;
  ret (current_row_idx, hs).

(** [all(row[self.headers.index(k)] == v for k, v in where_.items())]: the
    conditions are tried in order and the first one that fails ends the
    test. *)
Fixpoint all_conditions (self_headers : option (list string))
    (row : list string) (where_ : list (string * string)) : Res bool :=
  match where_ with
  | [] => Ok true
  | (k, v) :: rest =>
      match self_headers with
      | None => Raise AttributeError
      | Some hs =>
          match Str.index k hs with
          | None => Raise ValueError
          | Some i =>
              match row !! i with
              | None => Raise IndexError
              | Some cell =>
                  if String.eqb cell v
                  then all_conditions self_headers row rest
                  else Ok false
              end
          end
      end
  end.

(** [next(i for i, row in enumerate(rows) if all(...))], from index [i]. *)
Fixpoint next_matching (self_headers : option (list string))
    (rows : list (list string)) (where_ : list (string * string)) (i : nat)
  : Res nat :=
  match rows with
  | [] => Raise StopIteration
  | row :: rest =>
      match all_conditions self_headers row where_ with
      | Raise e => Raise e
      | Ok true => Ok i
      | Ok false => next_matching self_headers rest where_ (S i)
      end
  end.

Definition is_StopIteration (e : Exn) : bool := Exn_eqb e StopIteration.
Definition is_ValueError (e : Exn) : bool := Exn_eqb e ValueError.

(** The truth value of a cell: a string that is not empty. *)
Definition nonempty (s : string) : bool := negb (String.eqb s "").

(** One turn of [for col_header, value in what_.items()]; the result is the
    new [updates_count]. *)
Definition write_cell (overwrite : bool) (python_row_idx : nat)
    (updates_count : nat) (update : string * string) : M Sheet nat :=
  let '(col_header, value) := update in
  found <~ try_except
    (self_headers <~ headers ;;
     match self_headers with
     | None => raise AttributeError
     | Some hs =>
         match Str.index col_header hs with
         | None => raise ValueError
         | Some python_col_idx => ret (Some python_col_idx)
         end
     end)
    is_ValueError
    (fun e => logging WARNING "Column header '{col_header}' not found in headers" ;;;
              ret None) ;;
  match found with
  | None => ret updates_count
  | Some python_col_idx =>
      s <~ get ;;
      match local_sheet_values s !! python_row_idx with
      | None => raise IndexError
      | Some row =>
          match row !! python_col_idx with
          | None => raise IndexError
          | Some current_value =>
              if nonempty current_value
                 && negb (String.eqb current_value value)
                 && negb overwrite
              then
                logging WARNING "Skipping non-empty cell at row {python_row_idx + 1}, column {col_header}. Current value: '{current_value}', New value: '{value}'" ;;;
                ret updates_count
              else
                (if nonempty current_value
                    && negb (String.eqb current_value value)
                    && overwrite
                 then logging INFO "Overwriting cell at row {python_row_idx + 1}, column {col_header}. Old value: '{current_value}', New value: '{value}'"
                 else ret tt) ;;;
                _set_buffer_cells python_row_idx python_col_idx value ;;;
                ret (S updates_count)
          end
      end
  end.

Fixpoint write_updates (overwrite : bool) (python_row_idx : nat)
    (what_ : list (string * string)) (updates_count : nat) : M Sheet nat :=
  match what_ with
  | [] => ret updates_count
  | update :: rest =>
      updates_count <~ write_cell overwrite python_row_idx updates_count update ;;
      write_updates overwrite python_row_idx rest updates_count
  end.

(** One turn of [for where_, what_ in zip(where, what)].  The generator reads
    [self.headers] when it tests the first condition on the first row, and
    not at all without a row or without a condition. *)
Definition write_pair (overwrite : bool) (updates_count : nat)
    (item : list (string * string) * list (string * string)) : M Sheet nat :=
  let '(where_, what_) := item in
  located <~ try_except
    (s <~ get ;;
     match local_sheet_values s, where_ with
     | [], _ => raise StopIteration
     | _ :: _, [] => ret (Some 0%nat)
     | _ :: _, _ :: _ =>
         self_headers <~ headers ;;
         i <~ lift (next_matching self_headers (local_sheet_values s) where_ 0) ;;
         ret (Some i)
     end)
    is_StopIteration
    (fun e => logging WARNING "No matching row found for conditions: {where_}" ;;;
              ret None) ;;
  match located with
  | None => ret updates_count
  | Some python_row_idx => write_updates overwrite python_row_idx what_ updates_count
  end.

Fixpoint write_pairs (overwrite : bool)
    (items : list (list (string * string) * list (string * string)))
    (updates_count : nat) : M Sheet nat :=
  match items with
  | [] => ret updates_count
  | item :: rest =>
      updates_count <~ write_pair overwrite updates_count item ;;
      write_pairs overwrite rest updates_count
  end.

(** [write_cells(where, what, overwrite)]; a dictionary is the list of its
    items, in order. *)
Definition write_cells (where_list what : list (list (string * string)))
    (overwrite : bool) : M Sheet unit :=
  updates_count <~ write_pairs overwrite (combine where_list what) 0%nat ;;
  logging INFO "Updated {updates_count} cells in the sheet".

End GSheet.

(** Equality of notes and of scores is decidable (the table serialiser of
    the stubs compares values). *)
#[global] Instance Note_eq_dec : EqDecision Note.
Proof. solve_decision. Defined.

#[global] Instance Q_eq_dec : EqDecision Q.
Proof. solve_decision. Defined.

(** ** Stubs: a client, a serialiser and a hash to run the model on *)

Module Stub.

(** A hash that keeps its argument: good enough to name cache files. *)
Definition hashing : Hashing :=
  {| md5_hexdigest := fun s => s; hash_tuple := fun l => Z.of_nat (length l) |}.

(** A serialiser that knows a fixed table of blobs: a value of the table is
    written as its blob, any other value cannot be pickled (the file stays
    empty); a blob of the table is read back as its value, any other
    content cannot be unpickled. *)
Fixpoint blob_of {V} `{EqDecision V} (table : list (string * V)) (v : V)
  : option string :=
  match table with
  | [] => None
  | (b, v') :: rest => if decide (v' = v) then Some b else blob_of rest v
  end.

Fixpoint value_of {V} (table : list (string * V)) (b : string) : option V :=
  match table with
  | [] => None
  | (b', v) :: rest => if String.eqb b' b then Some v else value_of rest b
  end.

Definition pickle {V} `{EqDecision V} (table : list (string * V)) : Pickle V :=
  {| pickle_dump := fun v =>
       match blob_of table v with
       | Some b => (b, None)
       | None => ("", Some PicklingError)
       end;
     pickle_load := fun b =>
       match value_of table b with
       | Some v => Ok v
       | None => if String.eqb b "" then Raise EOFError else Raise UnpicklingError
       end |}.

(** A source of [records] served in pages: [records[offset : offset + limit]]. *)
Definition page (records : list Note) (limit offset : nat) : list Note :=
  take limit (drop offset records).

(** A client over a fixed set of submissions, groups and forum notes. *)
Definition client (records : list Note) (members : list string)
    (profile : string) (groups : list string)
    (forum_notes : string -> list Note) : Client :=
  {| get_notes_page := fun _ limit offset => Ok (page records limit offset);
     get_notes_number := fun _ n =>
       Ok (List.filter (fun p => Z.eqb (number p) n) records);
     get_notes_forum := fun f => Ok (forum_notes f);
     get_group := fun _ => Ok members;
     get_profile := Ok profile;
     get_groups := fun _ => Ok groups |}.

Definition paper (n : Z) (rs : list string) : Note :=
  {| number := n; forum := "f" +:+ Str.of_Z n; invitations := [];
     readers := rs; content := [] |}.

Definition world (d : Disk) : World := {| disk := d; logs := []; calls := [] |}.

Definition conference : string := "ICLR.cc/2026/Conference".

(** A generator with the cache in use, as the command line builds it by
    default. *)
Definition self (c : Client) : Self :=
  {| conference_id := conference;
     openreview_client := c;
     use_cache := true;
     refresh_cache := false;
     cache_dir := "data/ICLR2026/histogram_cache" |}.

Definition no_client : Client := client [] [] "~User1" [] (fun _ => []).

Definition empty_disk : Disk := {| files := ∅; denied := ∅ |}.

End Stub.

(** ** Counting pages *)

(** [ceil(n / p)] *)
Definition ceil_div (n p : nat) : nat := ((n + p - 1) / p)%nat.

(** The page requests at offsets [offset], [offset + p], ...: [k] of them. *)
Definition page_requests (invitation : string) (p offset k : nat) : list Request :=
  map (fun i => GetNotesPage invitation p (offset + i * p)%nat) (seq 0 k).

(** [prepend p l]: [p] put in front of the first piece of [l]. *)
Definition prepend (p : string) (l : list string) : list string :=
  match l with
  | [] => []
  | x :: xs => (p +:+ x) :: xs
  end.

(** The paper-number text that [classify_group] reads from a group id. *)
Definition paper_num_str (ac_group : string) : string :=
  hd "" (Str.split "/" (nth 1 (Str.split "/Submission" ac_group) "")).

(** A specific-assignment group of the conference [conf], such as
    [{conf}/Submission7/Area_Chair_abc]: its id holds [conf], ['/Submission']
    and ['/Area_Chair_']. *)
Definition specific_group (conf g : string) : Prop :=
  Str.occurs conf g /\ Str.occurs "/Submission" g /\ Str.occurs "/Area_Chair_" g.

(** A pool group, such as [{conf}/Submission7/Area_Chairs]. *)
Definition pool_group (conf g : string) : Prop :=
  Str.occurs conf g /\ Str.occurs "/Submission" g /\
  exists pre, g = pre +:+ "/Area_Chairs".

(** The two tests of [classify_group] on a group id. *)
Definition is_specific (conf g : string) : bool :=
  Str.contains conf g && Str.contains "/Submission" g
  && Str.contains "/Area_Chair_" g.

Definition is_pool (conf g : string) : bool :=
  Str.contains conf g && Str.contains "/Submission" g
  && Str.endswith "/Area_Chairs" g.

(** What the cache answers for [cache_key] on the disk [d]: the value that
    [_load_cache] would return. *)
Definition cached `{Hashing} {V : Type} `{Pickle V} (self : Self)
    (cache_key : string) (d : Disk) : option V :=
  if negb (use_cache self) || refresh_cache self then None
  else
    let cache_path := _get_cache_path self cache_key in
    if path_exists d cache_path then
      match read_file d cache_path with
      | Ok b => match pickle_load b with
                | Ok v => Some v
                | Raise _ => None
                end
      | Raise _ => None
      end
    else None.


(** ** The meaning of an average *)



(** The filtered scores of [paper], where the loop of
    [extract_average_scores] gets as far as extracting them: [None] for a
    paper that is skipped before (withdrawn and excluded, without reviews,
    or without a configured extractor).  [notes] gives the notes of a
    forum. *)
Definition paper_scores (self : Self) (info : ConferenceInfo)
    (score_type : string) (exclude_withdrawn : bool)
    (notes : string -> list Note) (paper : Note) : option (list Q) :=
  if exclude_withdrawn
     && Str.contains "Withdrawn" (content_value (content paper) "venue" "")
  then None
  else
    match List.filter
            (fun note => Str.mem (review_invitation self paper) (invitations note))
            (notes (forum paper)) with
    | [] => None
    | reviews =>
        match (if String.eqb score_type "initial"
               then RATING_EXTRACTOR info
               else FINAL_RATING_EXTRACTOR info) with
        | None => None
        | Some extractor => Some (extract_scores extractor reviews)
        end
    end.

(** What a paper adds to [avg_scores]. *)
Definition paper_average (scores : option (list Q)) : list Q :=
  match scores with
  | Some (s :: l) =>
      [(py_sum (s :: l) / inject_Z (Z.of_nat (length (s :: l))))%Q]
  | _ => []
  end.

(** The cache key of [extract_average_scores]. *)
Definition scores_cache_key `{Hashing} (self : Self) (submissions : list Note)
    (score_type : string) (exclude_withdrawn : bool) : string :=
  "scores_" +:+ conference_id self +:+ "_" +:+ score_type +:+ "_"
  +:+ str_bool exclude_withdrawn +:+ "_"
  +:+ Str.of_Z (hash_tuple (merge_sort Z.le (map number submissions))).

Module StubScores.

(** An official review of paper [n] with the given rating text. *)
Definition review (n : Z) (rating : string) : Note :=
  {| number := 0; forum := "f" +:+ Str.of_Z n;
     invitations := [Stub.conference +:+ "/Submission" +:+ Str.of_Z n
                     +:+ "/-/Official_Review"];
     readers := [];
     content := [("rating", rating)] |}.

(** A rating extractor: the integer under ['rating'], if there is one. *)
Definition rating (note : Note) : option Q :=
  inject_Z <$> Str.int (content_value (content note) "rating" "").

Definition info : ConferenceInfo :=
  {| RATING_EXTRACTOR := Some rating; FINAL_RATING_EXTRACTOR := None |}.

(** Paper 1 has the ratings 4 and 5 and a review without a rating; paper 2
    has one review, without a rating; paper 3 has no review. *)
Definition forum_notes (f : string) : list Note :=
  if String.eqb f "f1" then [review 1 "4"; review 1 ""; review 1 "5"]
  else if String.eqb f "f2" then [review 2 "n/a"]
  else [].

Definition submissions : list Note :=
  [Stub.paper 1 []; Stub.paper 2 []; Stub.paper 3 []].

Definition self : Self :=
  Stub.self (Stub.client submissions [] "~User1" [] forum_notes).

End StubScores.

Module GSheetSpec.
Import GSheet.

(** The header row of a sheet, as the [headers] property answers it: the
    cached row, or else the first row of the snapshot. *)
Definition header_row (s : Sheet) : option (list string) :=
  match _headers s, local_sheet_values s with
  | None, row0 :: _ => Some row0
  | h, _ => h
  end.

(** The sheet once the [headers] property has been read. *)
Definition with_headers_read (s : Sheet) : Sheet :=
  {| local_sheet_values := local_sheet_values s;
     _headers := header_row s;
     buffer := buffer s;
     sheet_logs := sheet_logs s |}.



(** The sheet with the cell writes [cells] staged after those it has. *)
Definition stage (cells : list (nat * nat * string)) (s : Sheet) : Sheet :=
  {| local_sheet_values := local_sheet_values s;
     _headers := _headers s;
     buffer := buffer s ++ cells;
     sheet_logs := sheet_logs s |}.

(** The record of a skipped cell write. *)
Definition skip_record : LogRecord :=
  Log WARNING "Skipping non-empty cell at row {python_row_idx + 1}, column {col_header}. Current value: '{current_value}', New value: '{value}'".

(** The record of a pair whose conditions match no row. *)
Definition no_row_record : LogRecord :=
  Log WARNING "No matching row found for conditions: {where_}".

(** The record of an update that names a column the header row lacks. *)
Definition no_column_record : LogRecord :=
  Log WARNING "Column header '{col_header}' not found in headers".

(** A sheet with the given rows, nothing cached and nothing staged. *)
Definition fresh (rows : list (list string)) : Sheet :=
  {| local_sheet_values := rows; _headers := None; buffer := [];
     sheet_logs := [] |}.

End GSheetSpec.

(** ** Computations that leave the disk alone *)

(** The world [w] with the disk [d] in place of its own. *)
Definition with_disk (d : Disk) (w : World) : World :=
  {| disk := d; logs := logs w; calls := calls w |}.

(** [c] neither reads nor writes the disk: run on any other disk, it returns
    the same, logs and calls the same, and leaves that disk as it is. *)
Definition ignores_disk {A} (c : M World A) : Prop :=
  forall w d, c (with_disk d w) = ((c w).1, with_disk d (c w).2).

(** ** Auxiliary notions for the statements on the fetch and score loops *)

(** What the request for the paper [n] adds to the assigned submissions:
    the notes it answers with, nothing when it raises. *)
Definition notes_or_skip (self : Self) (n : Z) : list Note :=
  match get_notes_number (openreview_client self) (submission_invitation self) n with
  | Ok paper_notes => paper_notes
  | Raise _ => []
  end.

(** [paper] counts as withdrawn: ['Withdrawn'] occurs in its venue. *)
Definition withdrawn (paper : Note) : bool :=
  Str.contains "Withdrawn" (content_value (content paper) "venue" "").

(** The official reviews of [paper] among the notes of its forum. *)
Definition reviews_of (self : Self) (notes : string -> list Note) (paper : Note)
  : list Note :=
  List.filter (fun note => Str.mem (review_invitation self paper) (invitations note))
              (notes (forum paper)).

(** [paper] gets as far as the choice of the extractor: it is not skipped as
    withdrawn and it has a review. *)
Definition reaches_extraction (self : Self) (exclude_withdrawn : bool)
    (notes : string -> list Note) (paper : Note) : bool :=
  negb (exclude_withdrawn && withdrawn paper)
  && match reviews_of self notes paper with [] => false | _ :: _ => true end.

(** The request for the paper [n] is answered, or raises one of the
    exceptions that the fetch of the assigned papers catches. *)
Definition answers_or_lookup_error (self : Self) (n : Z) : Prop :=
  match get_notes_number (openreview_client self) (submission_invitation self) n with
  | Ok _ => True
  | Raise e => lookup_errors e = true
  end.


(** ** Collaborators that fail, and runs without the cache *)

Module StubFaults.

(** A generator started with [--no-cache]. *)
Definition uncached (c : Client) : Self :=
  {| conference_id := Stub.conference;
     openreview_client := c;
     use_cache := false;
     refresh_cache := false;
     cache_dir := "data/ICLR2026/histogram_cache" |}.


(** A client over [records] whose page request at the offset [bad] raises
    [e]. *)
Definition failing_page (records : list Note) (bad : nat) (e : Exn) : Client :=
  {| get_notes_page := fun _ limit offset =>
       if (offset =? bad)%nat then Raise e
       else Ok (Stub.page records limit offset);
     get_notes_number := fun _ n =>
       Ok (List.filter (fun p => Z.eqb (number p) n) records);
     get_notes_forum := fun _ => Ok [];
     get_group := fun _ => Ok [];
     get_profile := Ok "~User1";
     get_groups := fun _ => Ok [] |}.

(** A client over [records] whose request for the paper [bad] raises [e]. *)
Definition failing_number (records : list Note) (bad : Z) (e : Exn) : Client :=
  {| get_notes_page := fun _ limit offset => Ok (Stub.page records limit offset);
     get_notes_number := fun _ n =>
       if Z.eqb n bad then Raise e
       else Ok (List.filter (fun p => Z.eqb (number p) n) records);
     get_notes_forum := fun _ => Ok [];
     get_group := fun _ => Ok [];
     get_profile := Ok "~User1";
     get_groups := fun _ => Ok [] |}.

(** A submission that was withdrawn. *)
Definition withdrawn_paper (n : Z) : Note :=
  {| number := n; forum := "f" +:+ Str.of_Z n; invitations := [];
     readers := [];
     content := [("venue", "ICLR 2026 Conference Withdrawn Submission")] |}.

End StubFaults.

(** ** Row writes and reads of [utils/gsheet.py]

    As for [_write_headers] and [write_cells], the model records the cells
    that an operation stages; when the [batch_sync_with_remote] decorator
    sends them is the business of the external sheet manager. *)

Module GSheetRows.
Import GSheet.

(** [dict(pairs)]: a later pair replaces an earlier one with the same key. *)
Definition py_dict (pairs : list (string * string)) : gmap string string :=
  fold_left (fun d kv => <[kv.1 := kv.2]> d) pairs ∅.

(** [for header_idx, header_name in enumerate(headers):
       if header_name in d: self._set_buffer_cells(...)]
    for the row [d] written at the sheet row [python_row_idx].  An entry of
    [headers] that is [None] is the key of no row. *)
Fixpoint write_row_cells (d : gmap string string) (python_row_idx : nat)
    (hs : list (option string)) (header_idx : nat) : M Sheet unit :=
  match hs with
  | [] => ret tt
  | header_name :: rest =>
      match header_name ≫= (d !!.) with
      | Some value => _set_buffer_cells python_row_idx header_idx value
      | None => ret tt
      end ;;;
      write_row_cells d python_row_idx rest (S header_idx)
  end.

(** [for row_idx, d in enumerate(data_list_batch)], with the variable
    [current_row_idx].  [headers] is [None] where Python's is: enumerating
    it raises. *)
Fixpoint write_batch_rows (data_list_batch : list (gmap string string))
    (hs : option (list (option string))) (start_row_idx row_idx : nat)
    (current_row_idx : nat) : M Sheet nat :=
  match data_list_batch with
  | [] => ret current_row_idx
  | d :: rest =>
      match hs with
      | None => raise TypeError
      | Some l => write_row_cells d (start_row_idx + row_idx) l 0
      end ;;;
      write_batch_rows rest hs start_row_idx (S row_idx) (S current_row_idx)
  end.

(** [_write_batch(data_list_batch, headers, start_row_idx)] *)
Definition _write_batch (data_list_batch : list (gmap string string))
    (hs : option (list (option string))) (start_row_idx : nat) : M Sheet nat :=
  current_row_idx <~ write_batch_rows data_list_batch hs start_row_idx 0
                                      start_row_idx ;;
  logging DEBUG "Batch of {len(data_list_batch)} rows written starting at row {start_row_idx}" ;;;
  ret current_row_idx.

(** [range(0, stop, step)] *)
Definition py_range (stop : nat) (step : Z) : Res (list nat) :=
  if (step =? 0)%Z then Raise ValueError
  else if (step <? 0)%Z then Ok []
  else Ok (map (fun i => (i * Z.to_nat step)%nat)
               (seq 0 (ceil_div stop (Z.to_nat step)))).

(** [for idx in range(0, total_rows, batch_size):
       current_row_idx = self._write_batch(rows[idx:idx + batch_size], ...)]
    over the indices [idxs]; the step of a range that is not empty is
    positive. *)
Fixpoint write_batches (rows : list (gmap string string))
    (hs : option (list (option string))) (batch_size : Z) (idxs : list nat)
    (current_row_idx : nat) : M Sheet nat :=
  match idxs with
  | [] => ret current_row_idx
  | idx :: rest =>
      current_row_idx <~ _write_batch (take (Z.to_nat batch_size) (drop idx rows))
                                      hs current_row_idx ;;
      write_batches rows hs batch_size rest current_row_idx
  end.

(** [for row in rows: data_list.append(dict(zip(self.headers, row)))] *)
Fixpoint collect_rows (rows : list (list string))
    (data_list : list (gmap string string))
  : M Sheet (list (gmap string string)) :=
  match rows with
  | [] => ret data_list
  | row :: rest =>
      self_headers <~ headers ;;
      match self_headers with
      | None => raise TypeError
      | Some hs => collect_rows rest (data_list ++ [py_dict (combine hs row)])
      end
  end.

Section External.

(** The two operations of the external sheet manager that the class calls:
    [self._worksheet.clear()] and [self.sync_from_remote()]. *)
Variable worksheet_clear : M Sheet unit.
Variable sync_from_remote : M Sheet unit.

Definition clear_worksheet : M Sheet unit :=
  worksheet_clear ;;;
  modify (fun s => {| local_sheet_values := local_sheet_values s;
                      _headers := None;
                      buffer := buffer s;
                      sheet_logs := sheet_logs s |}) ;;;
  logging INFO "Worksheet cleared".

Definition get_data_list : M Sheet (list (gmap string string)) :=
  sync_from_remote ;;;
  s <~ get ;;
  data_list <~ collect_rows (drop 1 (local_sheet_values s)) [] ;;
  logging INFO "Retrieved {len(data_list)} rows of data" ;;;
  ret data_list.

(** [write_rows(rows, empty_sheet, headers, write_headers, start_row_idx,
    batch_size, index_col=None, overwrite_headers)]: the call without
    [index_col], the one that [list_author_papers.py] makes.

    Its first half empties the sheet, takes the header row for [headers]
    when the argument is [None], and writes the headers; it yields
    [current_row_idx] and [headers].  With [headers=None] and no header row,
    [_write_headers] fails on its first use of the argument ([len(None)],
    [set(None)]). *)
Definition write_rows_head (empty_sheet : bool)
    (headers_arg : option (list string)) (write_headers : bool)
    (start_row_idx : nat) (overwrite_headers : bool)
  : M Sheet (nat * option (list (option string))) :=
  (if empty_sheet
   then clear_worksheet ;;; logging INFO "Sheet emptied before writing"
   else ret tt) ;;;
  hdrs <~ match headers_arg with
          | None => headers
          | Some h => ret (Some h)
          end ;;
  if write_headers then
    match hdrs with
    | None => headers ;;; raise TypeError
    | Some h =>
        r <~ _write_headers h start_row_idx overwrite_headers ;;
        ret (r.1, Some r.2)
    end
  else ret (start_row_idx, map Some <$> hdrs).

(** Its second half writes the rows in batches. *)
Definition write_rows_body (rows : list (gmap string string)) (batch_size : Z)
    (written : nat * option (list (option string))) : M Sheet nat :=
  let '(current_row_idx, hs) := written in
  let total_rows := length rows in
  idxs <~ lift (py_range total_rows batch_size) ;;
  current_row_idx <~ write_batches rows hs batch_size idxs current_row_idx ;;
  logging INFO "Total of {total_rows} rows written to sheet" ;;;
  ret current_row_idx.

Definition write_rows (rows : list (gmap string string)) (empty_sheet : bool)
    (headers_arg : option (list string)) (write_headers : bool)
    (start_row_idx : nat) (batch_size : Z) (overwrite_headers : bool)
  : M Sheet nat :=
  written <~ write_rows_head empty_sheet headers_arg write_headers
                             start_row_idx overwrite_headers ;;
  write_rows_body rows batch_size written.

End External.

(** The cell writes of one row under the headers [hs], the first header at
    the column [c]: one for each header that is a key of the row, in the
    order of the columns. *)
Definition row_cells_from (r c : nat) (hs : list (option string))
    (d : gmap string string) : list (nat * nat * string) :=
  omap id (imap (fun j h => (fun v => (r, (c + j)%nat, v)) <$> (h ≫= (d !!.))) hs).

Definition row_cells (r : nat) (hs : list (option string))
    (d : gmap string string) : list (nat * nat * string) :=
  row_cells_from r 0 hs d.

(** The cell writes of the rows [rows], the first one at the sheet row
    [start]. *)
Definition rows_cells (start : nat) (hs : list (option string))
    (rows : list (gmap string string)) : list (nat * nat * string) :=
  concat (imap (fun i d => row_cells (start + i) hs d) rows).

(** A collaborator that does nothing. *)
Definition idle : M Sheet unit := ret tt.

End GSheetRows.

(** ** Author matching and note counts of [list_author_papers.py] *)

Module AuthorPapers.

(** [s.lstrip('~')] *)
Fixpoint lstrip_tilde (s : string) : string :=
  match s with
  | String c s' => if Ascii.eqb c "~" then lstrip_tilde s' else s
  | EmptyString => EmptyString
  end.

(** [n] tildes. *)
Fixpoint tildes (n : nat) : string :=
  match n with
  | O => ""
  | S n' => String "~" (tildes n')
  end.

Section Matching.

(** [str.lower], which is left to Python. *)
Variable lower : string -> string.

(** [for aid in authorids: ...], up to the [break]. *)
Fixpoint match_authorids (author_id normalized_author_id : string)
    (authorids : list string) : bool :=
  match authorids with
  | [] => false
  | aid :: rest =>
      let normalized_aid := lstrip_tilde aid in
      if String.eqb author_id aid
         || String.eqb normalized_author_id normalized_aid
      then true
      else match_authorids author_id normalized_author_id rest
  end.

(** [for author in authors: ...], up to the [break]. *)
Fixpoint match_authors (author_id : string) (authors : list string) : bool :=
  match authors with
  | [] => false
  | author :: rest =>
      if String.eqb (lower author_id) (lower author)
         || Str.contains author_id author
      then true
      else match_authors author_id rest
  end.

(** The value of [is_author] for a paper with the author ids [authorids]
    and the author names [authors]. *)
Definition is_author (author_id : string) (authorids authors : list string)
  : bool :=
  let is_author :=
    match authorids with
    | [] => false
    | _ :: _ =>
        let normalized_author_id := lstrip_tilde author_id in
        match_authorids author_id normalized_author_id authorids
    end in
  if negb is_author && match authors with [] => false | _ :: _ => true end
  then match_authors author_id authors
  else is_author.

End Matching.

Section NoteCounts.

(** The notes of a forum, and the extractors of the conference: a
    dictionary, in the order of its keys, from a note type to a test on
    notes (the truth value of what the extractor returns). *)
Context {N : Type}.
Variable note_extractors : list (string * (N -> bool)).

Definition count_key (note_key : string) : string := note_key +:+ "_count".

(** [{note_key + '_count': 0 for note_key in self.note_extractors}] *)
Definition init_counts : gmap string Z :=
  fold_left (fun d kv => <[count_key kv.1 := 0%Z]> d) note_extractors ∅.

(** [for key, note_extractor in self.note_extractors.items():
       if note_extractor(note): note_counts[key + '_count'] += 1] *)
Fixpoint count_note (extractors : list (string * (N -> bool))) (note : N)
    (note_counts : gmap string Z) : Res (gmap string Z) :=
  match extractors with
  | [] => Ok note_counts
  | (key, note_extractor) :: rest =>
      if note_extractor note then
        match note_counts !! count_key key with
        | None => Raise KeyError
        | Some n => count_note rest note (<[count_key key := (n + 1)%Z]> note_counts)
        end
      else count_note rest note note_counts
  end.

(** [for note in forum_notes: ...] *)
Fixpoint count_notes (forum_notes : list N) (note_counts : gmap string Z)
  : Res (gmap string Z) :=
  match forum_notes with
  | [] => Ok note_counts
  | note :: rest =>
      match count_note note_extractors note note_counts with
      | Ok note_counts => count_notes rest note_counts
      | Raise e => Raise e
      end
  end.

(** [sum(note_counts.values())] *)
Definition sum_values (d : gmap string Z) : Z :=
  map_fold (fun _ v acc => (v + acc)%Z) 0%Z d.

(** The dictionary [note_counts] of a paper, with its ['others_count']. *)
Definition note_counts (forum_notes : list N) : Res (gmap string Z) :=
  match count_notes forum_notes init_counts with
  | Ok counts =>
      Ok (<["others_count" := (Z.of_nat (length forum_notes) - sum_values counts)%Z]>
            counts)
  | Raise e => Raise e
  end.

(** The number of notes that the test [accepts]. *)
Definition accepted (accepts : N -> bool) (forum_notes : list N) : Z :=
  Z.of_nat (length (List.filter accepts forum_notes)).

(** The number of extractors that accept [note]. *)
Definition hits (note : N) : Z :=
  Z.of_nat (length (List.filter (fun kv => kv.2 note) note_extractors)).

End NoteCounts.

End AuthorPapers.

(** ** Rows and conditions of [write_cells] *)

Module GSheetMatch.

(** The row meets the conditions [where_] under the header row [hs]: for
    each condition, its cell in the first column headed by the key holds
    the value. *)
Definition satisfies (hs row : list string) (where_ : list (string * string))
  : Prop :=
  Forall (fun kv => exists c, Str.index kv.1 hs = Some c /\ row !! c = Some kv.2)
         where_.

(** The conditions can be tested on every row: their keys are headers, and
    no row is shorter than the header row. *)
Definition testable (hs : list string) (rows : list (list string))
    (where_ : list (string * string)) : Prop :=
  Forall (fun kv => kv.1 ∈ hs) where_ /\
  Forall (fun row => (length hs <= length row)%nat) rows.

End GSheetMatch.

(** ** What the writers keep of a sheet *)

Module GSheetKeeps.
Import GSheet GSheetSpec.



End GSheetKeeps.

(** ** The note extractors of ICLR 2026 in [list_author_papers.py] *)

Module ConferenceNotes.

(** What the extractors read of a note of a forum. *)
Record ForumNote : Type := {
  note_invitations : list string;
  note_writers : list string;
  note_readers : list string;
  note_content : list (string * string)
}.

(** [any(invitation.endswith(suffix) for invitation in note.invitations)] *)
Definition invited (suffix : string) (note : ForumNote) : bool :=
  existsb (Str.endswith suffix) (note_invitations note).

(** [s.split('/')[-1]] *)
Definition last_segment (s : string) : string :=
  List.last (Str.split "/" s) "".

(** [any(x for x in names if x.split('/')[-1].startswith(role))]: [any]
    looks at the truth value of the names that pass the test. *)
Definition some_role (role : string) (names : list string) : bool :=
  existsb (fun x => negb (String.eqb x ""))
          (List.filter (fun x => Str.startswith role (last_segment x)) names).

(** [key in note.content] *)
Definition has_key (key : string) (note : ForumNote) : bool :=
  existsb (fun kv => String.eqb key kv.1) (note_content note).

(** [ALL_CONFERENCE_INFO["ICLR2026"]["NOTE_EXTRACTORS"]], which the entry
    of NeurIPS 2025 repeats. *)
Definition review (note : ForumNote) : bool :=
  invited "Official_Review" note.

Definition final_justification (note : ForumNote) : bool :=
  has_key "final_justification" note && invited "Official_Review" note.

Definition other_comment (note : ForumNote) : bool :=
  invited "Official_Comment" note
  && negb (some_role "Reviewer" (note_writers note)
           && some_role "Author" (note_readers note)).

Definition discussion_comment (note : ForumNote) : bool :=
  invited "Official_Comment" note
  && some_role "Reviewer" (note_writers note)
  && some_role "Author" (note_readers note).

Definition rebuttal (note : ForumNote) : bool :=
  invited "Rebuttal" note.

Definition rebuttal_acknowledgement (note : ForumNote) : bool :=
  invited "Mandatory_Acknowledgement" note.

Definition ac_letter_author (note : ForumNote) : bool :=
  invited "Author_AC_Confidential_Comment" note
  && some_role "Author" (note_writers note).

Definition ac_letter_ac (note : ForumNote) : bool :=
  invited "Author_AC_Confidential_Comment" note
  && some_role "Area_Chair" (note_writers note).

Definition NOTE_EXTRACTORS : list (string * (ForumNote -> bool)) :=
  [("review", review);
   ("final_justification", final_justification);
   ("other_comment", other_comment);
   ("discussion_comment", discussion_comment);
   ("rebuttal", rebuttal);
   ("rebuttal_acknowledgement", rebuttal_acknowledgement);
   ("ac_letter_author", ac_letter_author);
   ("ac_letter_ac", ac_letter_ac)].

End ConferenceNotes.

(** * Properties *)

(** ** The monad *)

Ltac run :=
  unfold bind, ret, raise, lift, get, modify, try_except, any_Exception,
    logging, set_disk, api in *; simpl in *.

(** ** Disk cache *)

Section CacheFacts.
Context `{Hashing} {V : Type} `{Pickle V}.
Variable self : Self.


Lemma save_cache_returns key v w :
  exists w', _save_cache self key v w = (Ok tt, w').
Proof.
  unfold _save_cache.
  destruct (negb (use_cache self)); run; eauto.
  destruct (open_wb (disk w) (_get_cache_path self key)); simpl; eauto.
  destruct (pickle_dump v) as [b [e|]]; simpl; eauto.
Qed.
End CacheFacts.

Section CacheTheorems.
Context `{Hashing} {V : Type} `{Pickle V}.
Variable self : Self.


End CacheTheorems.




(** ** Pagination *)

Lemma page_requests_S invitation p offset k :
  page_requests invitation p offset (S k)
  = GetNotesPage invitation p offset
    :: page_requests invitation p (offset + p) k.
Proof.
  unfold page_requests. simpl. rewrite Nat.add_0_r. f_equal.
  rewrite <- seq_shift, map_map. apply map_ext. intros i. simpl. f_equal. lia.
Qed.

Lemma div_step (n p : nat) : (0 < p)%nat -> (p <= n)%nat -> (n / p = S ((n - p) / p))%nat.
Proof.
  intros Hp Hn. replace n with ((n - p) + 1 * p)%nat at 1 by lia.
  rewrite Nat.div_add by lia. lia.
Qed.

Section PaginationFacts.
Context `{Hashing} `{Pickle (list Note)} `{Pickle (list Q)}.
Variable self : Self.
Variable records : list Note.
Hypothesis served :
  forall invitation limit offset,
    get_notes_page (openreview_client self) invitation limit offset
    = Ok (Stub.page records limit offset).

Let inv := submission_invitation self.

Lemma fetch_loop_served (p : nat) :
  (0 < p)%nat ->
  forall fuel offset acc w,
    (length (drop offset records) / p < fuel)%nat ->
    exists w',
      fetch_loop self p fuel offset acc w
      = (Ok (Some (acc ++ drop offset records)), w') /\
      disk w' = disk w /\
      calls w' = calls w
                 ++ page_requests inv p offset (S (length (drop offset records) / p)).
Proof.
  intros Hp. induction fuel as [|fuel IH]; intros offset acc w Hfuel; [lia|].
  cbn [fetch_loop]. run. rewrite served. unfold Stub.page. simpl.
  set (rest := drop offset records) in *.
  destruct (take p rest) as [|x batch] eqn:Hb.
  - assert (rest = []) as ->.
    { destruct rest; [done|]. destruct p; [lia|]. discriminate. }
    simpl. rewrite Nat.Div0.div_0_l. rewrite app_nil_r.
    eexists; repeat split; simpl; eauto.
    unfold page_requests; simpl. by rewrite Nat.add_0_r.
  - rewrite <- Hb. clear x batch Hb.
    destruct (Nat.ltb_spec (length (take p rest)) p) as [Hlt | Hge].
    + rewrite length_take in Hlt.
      assert (length rest < p)%nat by lia.
      rewrite take_ge by lia. rewrite Nat.div_small by lia.
      eexists; repeat split; simpl; eauto.
      unfold page_requests; simpl. by rewrite Nat.add_0_r.
    + rewrite length_take in Hge.
      assert (p <= length rest)%nat by lia.
      assert (Hd : drop (offset + p) records = drop p rest).
      { unfold rest. rewrite drop_drop. done. }
      rewrite (div_step (length rest) p) in Hfuel |- * by lia.
      match goal with |- context [fetch_loop self p fuel ?o ?a ?w0] =>
        destruct (IH o a w0) as (w' & Hrun & Hdisk & Hcalls)
      end.
      { rewrite Hd, length_drop. lia. }
      rewrite Hrun. exists w'. split; [|split].
      * rewrite Hd, <- app_assoc, take_drop. done.
      * rewrite Hdisk. done.
      * rewrite Hcalls. simpl. rewrite Hd, length_drop.
        rewrite (page_requests_S inv p offset). rewrite <- app_assoc. done.
Qed.

(** Over a source that never raises, the guarded loop of
    [list_author_papers.py] runs as the loop of [get_all_submissions]. *)
Lemma author_fetch_loop_served (p fuel : nat) :
  forall offset acc w,
    author_fetch_loop self p fuel offset acc w
    = fetch_loop self p fuel offset acc w.
Proof.
  induction fuel as [|fuel IH]; intros offset acc w; [reflexivity|].
  cbn [author_fetch_loop fetch_loop]. run. rewrite served. simpl.
  destruct (Stub.page records p offset) as [|x batch]; [reflexivity|].
  simpl. destruct (Nat.ltb (S (length batch)) p); [reflexivity|]. apply IH.
Qed.
End PaginationFacts.

Lemma pages_vs_ceil (n p : nat) :
  (0 < p)%nat ->
  (n / p + 1 = if (n mod p =? 0) then S (ceil_div n p) else ceil_div n p)%nat.
Proof.
  intros Hp. unfold ceil_div.
  pose proof (Nat.div_mod_eq n p) as Hn.
  pose proof (Nat.mod_upper_bound n p ltac:(lia)) as Hr.
  set (q := (n / p)%nat) in *. set (r := (n mod p)%nat) in *.
  destruct (Nat.eqb_spec r 0) as [Hz | Hnz].
  - assert ((n + p - 1) / p = q)%nat; [|lia].
    symmetry. apply (Nat.div_unique _ _ _ (p - 1)); lia.
  - assert ((n + p - 1) / p = q + 1)%nat; [|lia].
    symmetry. apply (Nat.div_unique _ _ _ (r - 1)); lia.
Qed.

(** C3, amended.  Over a source that holds the [N] records and serves the
    page [records[offset : offset + limit]], the pagination loop with page
    size [P > 0] (of [get_all_submissions], and the guarded one of
    [get_author_papers_list]) terminates within [N / P + 1] iterations, asks
    for exactly the [N / P + 1] pages at offsets [0], [P], [2 P], ..., and
    accumulates exactly the [N] records in their order.  That count of
    requests is [ceil(N / P)] when [P] does not divide [N], and one more
    when it does. *)
Theorem pagination_served (self : Self) (records : list Note) (p fuel : nat)
    (w : World) :
  (forall invitation limit offset,
      get_notes_page (openreview_client self) invitation limit offset
      = Ok (Stub.page records limit offset)) ->
  (0 < p)%nat ->
  (length records / p < fuel)%nat ->
  exists w',
    fetch_loop self p fuel 0 [] w = (Ok (Some records), w') /\
    author_fetch_loop self p fuel 0 [] w = (Ok (Some records), w') /\
    calls w' = calls w ++ page_requests (submission_invitation self) p 0
                                        (length records / p + 1) /\
    length (page_requests (submission_invitation self) p 0
                          (length records / p + 1))
    = (if (length records mod p =? 0)%nat
       then S (ceil_div (length records) p)
       else ceil_div (length records) p).
Proof.
  intros Hserved Hp Hfuel.
  destruct (fetch_loop_served self records Hserved p Hp fuel 0%nat [] w)
    as (w' & Hrun & _ & Hcalls).
  { rewrite drop_0. exact Hfuel. }
  rewrite drop_0 in Hrun, Hcalls. simpl in Hrun.
  exists w'. split; [exact Hrun|]. split.
  - rewrite (author_fetch_loop_served self records Hserved). exact Hrun.
  - split.
    + rewrite Hcalls. by rewrite Nat.add_1_r.
    + unfold page_requests. rewrite length_map, length_seq.
      by apply pages_vs_ceil.
Qed.

(** The amended pagination at a concrete input: five records in pages of
    two take three requests. *)
Lemma pagination_served_witness :
  let records := map (fun n => Stub.paper n []) [1; 2; 3; 4; 5]%Z in
  let self := Stub.self (Stub.client records [] "~User1" [] (fun _ => [])) in
  exists w',
    fetch_loop self 2 3 0 [] (Stub.world Stub.empty_disk) = (Ok (Some records), w') /\
    author_fetch_loop self 2 3 0 [] (Stub.world Stub.empty_disk)
    = (Ok (Some records), w') /\
    calls w' = [GetNotesPage (submission_invitation self) 2 0;
                GetNotesPage (submission_invitation self) 2 2;
                GetNotesPage (submission_invitation self) 2 4] /\
    3%nat = ceil_div 5 2.
Proof.
  intros records self.
  destruct (pagination_served self records 2 3 (Stub.world Stub.empty_disk))
    as (w' & H1 & H2 & H3 & H4).
  - reflexivity.
  - lia.
  - vm_compute. lia.
  - exists w'. split; [exact H1|]. split; [exact H2|]. split; [exact H3|].
    exact H4.
Defined.

(** C3, as stated, fails: when the page size divides the number of records
    the last full page does not end the loop, and one more request (the one
    that comes back empty) is made.  With the page size of the scripts,
    1000, and 1000 records the loop makes two requests, not
    [ceil(1000 / 1000) = 1]; the records come back complete and in order. *)
Lemma pagination_full_last_page_extra_request :
  let records := map (fun n => Stub.paper (Z.of_nat n) []) (seq 1 1000) in
  let self := Stub.self (Stub.client records [] "~User1" [] (fun _ => [])) in
  exists w',
    fetch_loop self 1000 2 0 [] (Stub.world Stub.empty_disk)
    = (Ok (Some records), w') /\
    calls w' = [GetNotesPage (submission_invitation self) 1000 0;
                GetNotesPage (submission_invitation self) 1000 1000] /\
    ceil_div (length records) 1000 = 1%nat /\
    length (calls w') <> ceil_div (length records) 1000.
Proof.
  intros records self.
  destruct (fetch_loop_served self records ltac:(reflexivity) 1000 ltac:(lia)
              2 0%nat [] (Stub.world Stub.empty_disk))
    as (w' & H1 & _ & H3).
  - vm_compute. lia.
  - exists w'. split; [exact H1|]. rewrite H3.
    split; [reflexivity|]. split; [vm_compute; reflexivity|].
    vm_compute. lia.
Qed.

(** ** Strings: the source's operations against their meaning *)

(** The operations on the group ids of the scripts. *)
Example split_ex1 :
  Str.split "/Submission" "ICLR.cc/2026/Conference/Submission7/Area_Chair_abc"
  = ["ICLR.cc/2026/Conference"; "7/Area_Chair_abc"].
Proof. reflexivity. Qed.
Example split_ex2 : Str.split "/" "7/Area_Chair_abc" = ["7"; "Area_Chair_abc"].
Proof. reflexivity. Qed.
Example split_ex3 : Str.split "aa" "aaa" = [""; "a"].
Proof. reflexivity. Qed.
Example split_ex4 : Str.split "/" "" = [""].
Proof. reflexivity. Qed.
Example int_ex1 : Str.int " 1_000 " = Some 1000%Z. Proof. reflexivity. Qed.
Example int_ex2 : Str.int "-07" = Some (-7)%Z. Proof. reflexivity. Qed.
Example int_ex3 : Str.int "7a" = None. Proof. reflexivity. Qed.
Example int_ex4 : Str.int "" = None. Proof. reflexivity. Qed.
Example int_ex5 : Str.int "1__0" = None. Proof. reflexivity. Qed.
Example ofZ_ex : Str.of_Z 17 = "17" /\ Str.of_Z (-3) = "-3" /\ Str.of_Z 0 = "0". Proof. repeat split; reflexivity. Qed.


Lemma sapp_cons (c : ascii) (s t : string) :
  String c s +:+ t = String c (s +:+ t).
Proof. reflexivity. Qed.

Lemma sapp_nil_l (t : string) : "" +:+ t = t.
Proof. reflexivity. Qed.

Ltac sapp := rewrite ?sapp_cons, ?sapp_nil_l in *.

Lemma sapp_nil_r (s : string) : s +:+ "" = s.
Proof. induction s as [|c s IH]; sapp; [done | by f_equal]. Qed.

Lemma sapp_assoc (a b c : string) : (a +:+ b) +:+ c = a +:+ (b +:+ c).
Proof. induction a as [|x a IH]; sapp; [done | by f_equal]. Qed.

Lemma slength_app (a b : string) :
  String.length (a +:+ b) = (String.length a + String.length b)%nat.
Proof. induction a as [|x a IH]; sapp; simpl; [done | by f_equal]. Qed.

(** Two splittings of one string at the same position agree. *)
Lemma sapp_same_length (a b x y : string) :
  a +:+ x = b +:+ y -> String.length a = String.length b -> a = b /\ x = y.
Proof.
  revert b. induction a as [|c a IH]; intros [|d b] Heq Hlen; sapp; simpl in *;
    try discriminate; [done|].
  injection Heq as -> Heq. destruct (IH b Heq) as [-> ->]; [lia | done].
Qed.

Lemma startswith_spec (p s : string) :
  Str.startswith p s = true <-> exists post, s = p +:+ post.
Proof.
  revert s. induction p as [|a p IH]; intros s; simpl.
  - split; eauto.
  - destruct s as [|b s]; [split; [done | intros [post Hp]; discriminate]|].
    rewrite andb_true_iff, Ascii.eqb_eq, IH. split.
    + intros [-> [post ->]]. eauto.
    + intros [post Hp]. sapp. injection Hp as -> ->. eauto.
Qed.

Lemma contains_spec (sub s : string) :
  Str.contains sub s = true <-> Str.occurs sub s.
Proof.
  unfold Str.occurs. induction s as [|c s IH]; simpl.
  - rewrite orb_false_r, startswith_spec. split.
    + intros [post Hp]. exists "", post. done.
    + intros ([|x pre] & post & Hp); sapp; [eauto | discriminate].
  - rewrite orb_true_iff, startswith_spec, IH. split.
    + intros [[post Hp] | (pre & post & ->)].
      * exists "", post. done.
      * exists (String c pre), post. done.
    + intros ([|x pre] & post & Hp); sapp.
      * left. eauto.
      * injection Hp as -> ->. right. eauto.
Qed.

Lemma contains_false (sub s : string) :
  Str.contains sub s = false <-> ~ Str.occurs sub s.
Proof.
  rewrite <- contains_spec. by destruct (Str.contains sub s).
Qed.

Lemma sdrop_app (p s : string) : Str.sdrop (String.length p) (p +:+ s) = s.
Proof. induction p as [|c p IH]; sapp; simpl; [by destruct s | done]. Qed.

(** [before] and [after] cut [s] at an occurrence of [sep] ... *)
Lemma after_before (sep s r : string) :
  Str.after sep s = Some r -> s = Str.before sep s +:+ sep +:+ r.
Proof.
  assert (Hcut : forall t, Str.startswith sep t = true ->
                           t = sep +:+ Str.sdrop (String.length sep) t).
  { intros t [post ->]%startswith_spec. by rewrite sdrop_app. }
  induction s as [|c s IH]; cbn [Str.after Str.before].
  - destruct (Str.startswith sep "") eqn:Hs; [|done].
    intros [= <-]. sapp. by apply Hcut.
  - destruct (Str.startswith sep (String c s)) eqn:Hs.
    + intros [= <-]. sapp. by apply Hcut.
    + intros Ha. sapp. f_equal. by apply IH.
Qed.

(** ... which is the first one. *)
Lemma before_first (sep s pre post : string) :
  s = pre +:+ sep +:+ post ->
  (String.length (Str.before sep s) <= String.length pre)%nat.
Proof.
  revert pre. induction s as [|c s IH]; intros pre Hs; simpl.
  - destruct (Str.startswith sep ""); simpl; lia.
  - destruct (Str.startswith sep (String c s)) eqn:Hst; simpl; [lia|].
    destruct pre as [|x pre]; sapp.
    + assert (Str.startswith sep (String c s) = true) as Ht; [|congruence].
      apply startswith_spec. eauto.
    + injection Hs as -> Hs. specialize (IH pre Hs). simpl. lia.
Qed.

Lemma after_occurs (sep s : string) :
  Str.occurs sep s -> exists r, Str.after sep s = Some r.
Proof.
  intros (pre & post & ->). induction pre as [|c pre IH]; sapp.
  - assert (Str.startswith sep (sep +:+ post) = true) as Hs
        by (apply startswith_spec; eauto).
    destruct (sep +:+ post) as [|d t] eqn:Ht; simpl; rewrite Hs; eauto.
  - simpl. destruct (Str.startswith sep (String c (pre +:+ sep +:+ post))); eauto.
Qed.

Lemma after_None (sep s : string) :
  Str.after sep s = None -> Str.before sep s = s.
Proof.
  induction s as [|c s IH]; simpl.
  - by destruct (Str.startswith sep "").
  - destruct (Str.startswith sep (String c s)); [done|].
    intros Ha. by rewrite IH.
Qed.

Lemma first_occurrence_cut (sep s pre post : string) :
  Str.first_occurrence sep s pre post <->
  Str.after sep s = Some post /\ Str.before sep s = pre.
Proof.
  split.
  - intros [Hs Hmin].
    destruct (after_occurs sep s) as [r Hr]; [by exists pre, post|].
    pose proof (after_before _ _ _ Hr) as Hcut.
    pose proof (before_first _ _ _ _ Hs) as H1.
    pose proof (Hmin _ _ Hcut) as H2.
    rewrite Hs in Hcut at 1.
    apply sapp_same_length in Hcut as [Hpre Hrest]; [|lia].
    apply sapp_same_length in Hrest as [_ Hpost]; [|done].
    subst. done.
  - intros [Ha <-]. split; [by apply after_before|].
    intros pre' post' Hs. by eapply before_first.
Qed.

Lemma rev_string_app (s acc : string) :
  Str.rev_string s acc = Str.rev_string s "" +:+ acc.
Proof.
  revert acc. induction s as [|c s IH]; intros acc; simpl; [done|].
  rewrite (IH (String c acc)), (IH (String c "")), sapp_assoc. done.
Qed.

Lemma split_go_cur (sep s : string) (k : nat) (cur : string) :
  Str.split_go sep s k cur
  = prepend (Str.rev_string cur "") (Str.split_go sep s k "").
Proof.
  revert k cur. induction s as [|c s IH]; intros k cur; simpl.
  - by rewrite sapp_nil_r.
  - destruct k as [|k]; [|apply IH].
    destruct (Str.startswith sep (String c s)); simpl.
    + by rewrite sapp_nil_r.
    + rewrite (IH 0%nat (String c cur)), (IH 0%nat (String c "")).
      destruct (Str.split_go sep s 0 "") as [|x xs]; simpl; [done|].
      rewrite (rev_string_app cur (String c "")), sapp_assoc. done.
Qed.

Lemma split_go_skip (sep s : string) (k : nat) (cur : string) :
  (k <= String.length s)%nat ->
  Str.split_go sep s k cur = Str.split_go sep (Str.sdrop k s) 0 cur.
Proof.
  revert k. induction s as [|c s IH]; intros [|k] Hk; simpl in *; try done; try lia.
  apply IH. lia.
Qed.

(** The equation of [split]: cut at the first occurrence of the separator,
    go on with what follows it. *)
Lemma split_cut (sep s : string) :
  sep <> "" ->
  Str.split sep s
  = match Str.after sep s with
    | None => [s]
    | Some r => Str.before sep s :: Str.split sep r
    end.
Proof.
  intros Hsep. unfold Str.split. induction s as [|c s IH].
  - destruct sep; done.
  - cbn [Str.split_go Str.after Str.before].
    destruct (Str.startswith sep (String c s)) eqn:Hs.
    + simpl. f_equal.
      apply startswith_spec in Hs as [post Hp].
      destruct sep as [|a sep]; [done|]. sapp. injection Hp as <- ->.
      simpl. rewrite Nat.sub_0_r. rewrite split_go_skip.
      * done.
      * rewrite slength_app. lia.
    + rewrite split_go_cur, IH. simpl.
      destruct (Str.after sep s); done.
Qed.

Lemma split_hd (sep s : string) :
  sep <> "" -> hd "" (Str.split sep s) = Str.before sep s.
Proof.
  intros Hsep. rewrite split_cut by done.
  destruct (Str.after sep s) eqn:Ha; simpl; [done|].
  by rewrite after_None.
Qed.

Lemma split_second (sep s r : string) :
  sep <> "" -> Str.after sep s = Some r ->
  (1 <? length (Str.split sep s))%nat = true /\
  nth 1 (Str.split sep s) "" = Str.before sep r.
Proof.
  intros Hsep Ha. rewrite (split_cut sep s), Ha by done.
  pose proof (split_hd sep r Hsep) as Hhd.
  destruct (Str.split sep r) as [|x xs] eqn:Hr; simpl in *.
  - rewrite split_cut in Hr by done. by destruct (Str.after sep r).
  - done.
Qed.

Lemma startswith_char (c d : ascii) (x : string) :
  Str.startswith (String c "") (String d x) = Ascii.eqb c d.
Proof. simpl. apply andb_true_r. Qed.

(** A separator that begins with [c] is found no earlier than [c]. *)
Lemma before_char_before (c : ascii) (sep' s : string) :
  Str.before (String c "") (Str.before (String c sep') s)
  = Str.before (String c "") s.
Proof.
  induction s as [|d s IH]; [by destruct sep'|].
  cbn [Str.before].
  destruct (Str.startswith (String c sep') (String d s)) eqn:Hs.
  - simpl in Hs. apply andb_true_iff in Hs as [Hc _].
    cbn [Str.before]. rewrite startswith_char, Hc. by destruct sep'.
  - cbn [Str.before]. rewrite !startswith_char.
    destruct (Ascii.eqb c d); [done|]. by rewrite IH.
Qed.

Lemma paper_num_str_cut (g r : string) :
  Str.after "/Submission" g = Some r ->
  paper_num_str g = Str.before "/" r.
Proof.
  intros Ha. unfold paper_num_str.
  destruct (split_second "/Submission" g r) as [_ ->]; [done | done |].
  rewrite split_hd by done. apply before_char_before.
Qed.

(** The text before the first [c] holds no [c], and what follows it is empty
    or begins with [c]; no other cut of the string is like that. *)
Lemma before_char_cut (c : ascii) (s : string) :
  ~ Str.occurs (String c "") (Str.before (String c "") s) /\
  exists post, s = Str.before (String c "") s +:+ post /\
               (post = "" \/ exists post', post = String c "" +:+ post').
Proof.
  split.
  - apply contains_false. induction s as [|d s IH]; [done|].
    cbn [Str.before]. rewrite startswith_char.
    destruct (Ascii.eqb c d) eqn:Hc; [done|].
    cbn [Str.contains]. by rewrite startswith_char, Hc, IH.
  - destruct (Str.after (String c "") s) as [r|] eqn:Ha.
    + exists (String c "" +:+ r). split; [|eauto]. exact (after_before _ _ _ Ha).
    + exists "". rewrite after_None by done.
      split; [by rewrite sapp_nil_r | by left].
Qed.

Lemma before_char_unique (c : ascii) (seg post : string) :
  ~ Str.occurs (String c "") seg ->
  (post = "" \/ exists post', post = String c "" +:+ post') ->
  Str.before (String c "") (seg +:+ post) = seg.
Proof.
  intros Hfree%contains_false Hpost.
  induction seg as [|d seg IH]; sapp.
  - destruct Hpost as [-> | [post' ->]]; [done|]. sapp.
    cbn [Str.before]. by rewrite startswith_char, Ascii.eqb_refl.
  - cbn [Str.contains] in Hfree. rewrite startswith_char in Hfree.
    apply orb_false_iff in Hfree as [Hd Hfree].
    cbn [Str.before]. rewrite startswith_char, Hd. by rewrite IH.
Qed.

(** The segment of the specification is what the source reads. *)
Lemma is_segment_iff (g seg : string) :
  Str.is_segment g seg <->
  exists r, Str.after "/Submission" g = Some r /\ seg = paper_num_str g.
Proof.
  unfold Str.is_segment. split.
  - intros (pre & post & Hfirst & Hfree & Hpost).
    apply first_occurrence_cut in Hfirst as [Ha _].
    eexists. split; [exact Ha|].
    rewrite (paper_num_str_cut _ _ Ha).
    symmetry. by apply before_char_unique.
  - intros (r & Ha & ->). rewrite (paper_num_str_cut _ _ Ha).
    destruct (before_char_cut "/" r) as (Hfree & post & Hr & Hpost).
    exists (Str.before "/Submission" g), post.
    split; [|done]. apply first_occurrence_cut. split; [|done].
    by rewrite <- Hr.
Qed.

Lemma rev_string_sapp (a b : string) :
  Str.rev_string (a +:+ b) "" = Str.rev_string b "" +:+ Str.rev_string a "".
Proof.
  induction a as [|c a IH]; sapp; simpl.
  - by rewrite sapp_nil_r.
  - rewrite (rev_string_app (a +:+ b)), (rev_string_app a), IH, sapp_assoc. done.
Qed.

Lemma rev_string_involutive (s : string) :
  Str.rev_string (Str.rev_string s "") "" = s.
Proof.
  induction s as [|c s IH]; simpl; [done|].
  rewrite (rev_string_app s), rev_string_sapp, IH. done.
Qed.

Lemma endswith_spec (p s : string) :
  Str.endswith p s = true <-> exists pre, s = pre +:+ p.
Proof.
  unfold Str.endswith. rewrite startswith_spec. split.
  - intros [post Hp]. exists (Str.rev_string post "").
    rewrite <- (rev_string_involutive s), Hp, rev_string_sapp.
    by rewrite rev_string_involutive.
  - intros [pre ->]. exists (Str.rev_string pre ""). apply rev_string_sapp.
Qed.

Lemma occurs_inside (sub pre post s : string) :
  Str.occurs (pre +:+ sub +:+ post) s -> Str.occurs sub s.
Proof.
  intros (a & b & ->). exists (a +:+ pre), (post +:+ b).
  by rewrite !sapp_assoc.
Qed.

Lemma is_specific_spec conf g :
  is_specific conf g = true <-> specific_group conf g.
Proof.
  unfold is_specific, specific_group.
  rewrite !andb_true_iff, !contains_spec. tauto.
Qed.

Lemma is_pool_spec conf g : is_pool conf g = true <-> pool_group conf g.
Proof.
  unfold is_pool, pool_group.
  rewrite !andb_true_iff, !contains_spec, endswith_spec. tauto.
Qed.

Section ClassifyFacts.
Variable self : Self.
Let conf := conference_id self.

Lemma classify_group_specific A S P g :
  is_specific conf g = true ->
  classify_group self (A, S, P) g
  = (match Str.int (paper_num_str g) with
     | Some n => {[n]} ∪ A
     | None => A
     end, S ++ [g], P).
Proof.
  intros Hs. unfold classify_group. fold conf.
  unfold is_specific in Hs. fold conf in Hs. rewrite Hs.
  apply andb_true_iff in Hs as [[_ Hsub]%andb_true_iff _].
  apply contains_spec, after_occurs in Hsub as [r Hr].
  destruct (split_second "/Submission" g r) as [-> _]; [done | done |].
  fold (paper_num_str g). by destruct (Str.int (paper_num_str g)).
Qed.

Lemma classify_group_other A S P g :
  is_specific conf g = false ->
  classify_group self (A, S, P) g
  = (A, S, if is_pool conf g then P ++ [g] else P).
Proof.
  intros Hs. unfold classify_group. fold conf.
  unfold is_specific in Hs. fold conf in Hs. rewrite Hs. unfold is_pool.
  by destruct (Str.contains conf g && Str.contains "/Submission" g
               && Str.endswith "/Area_Chairs" g).
Qed.

Lemma classify_fold groups : forall A S P,
  exists A',
    fold_left (classify_group self) groups (A, S, P)
    = (A', S ++ List.filter (is_specific conf) groups,
       P ++ List.filter (fun g => negb (is_specific conf g) && is_pool conf g) groups) /\
    forall n, n ∈ A' <->
              n ∈ A \/ exists g, g ∈ groups /\ is_specific conf g = true /\
                                 Str.int (paper_num_str g) = Some n.
Proof.
  induction groups as [|g groups IH]; intros A S P; cbn [fold_left List.filter].
  - exists A. rewrite !app_nil_r. split; [done|]. intros n. split; [eauto|].
    intros [?|(g & Hg & _)]; [done|]. by apply elem_of_nil in Hg.
  - destruct (is_specific conf g) eqn:Hs.
    + rewrite classify_group_specific by done. cbn [negb andb].
      edestruct IH as (A' & -> & HA'). exists A'.
      rewrite <- !app_assoc. split; [done|].
      intros n. rewrite HA'. split.
      * intros [Hn | (g' & Hg' & Hs' & Hn)].
        -- destruct (Str.int (paper_num_str g)) as [m|] eqn:Hm.
           ++ apply elem_of_union in Hn as [->%elem_of_singleton | Hn]; [|by left].
              right. exists g. split; [apply elem_of_cons; by left | done].
           ++ by left.
        -- right. exists g'. split; [apply elem_of_cons; by right | done].
      * intros [Hn | (g' & Hg' & Hs' & Hn)].
        -- left. destruct (Str.int (paper_num_str g)); [|done].
           apply elem_of_union. by right.
        -- apply elem_of_cons in Hg' as [-> | Hg'].
           ++ left. rewrite Hn. apply elem_of_union. left. by apply elem_of_singleton.
           ++ right. eauto.
    + rewrite classify_group_other by done. cbn [negb andb].
      edestruct IH as (A' & -> & HA'). exists A'. split.
      * destruct (is_pool conf g); by rewrite <- ?app_assoc.
      * intros n. rewrite HA'. split.
        -- intros [Hn | (g' & Hg' & Hs' & Hn)]; [by left|].
           right. exists g'. split; [apply elem_of_cons; by right | done].
        -- intros [Hn | (g' & Hg' & Hs' & Hn)]; [by left|].
           apply elem_of_cons in Hg' as [-> | Hg']; [congruence|].
           right. eauto.
Qed.
End ClassifyFacts.

Lemma elem_of_List_filter {A} (f : A -> bool) (l : list A) (x : A) :
  x ∈ List.filter f l <-> x ∈ l /\ f x = true.
Proof. rewrite !list_elem_of_In. apply filter_In. Qed.

Lemma specific_is_ac_group conf g :
  specific_group conf g -> Str.contains "Area_Chair" g = true.
Proof.
  intros (_ & _ & Hac). apply contains_spec.
  apply (occurs_inside "Area_Chair" "/" "_"). exact Hac.
Qed.

Lemma pool_is_ac_group conf g :
  pool_group conf g -> Str.contains "Area_Chair" g = true.
Proof.
  intros (_ & _ & pre & ->). apply contains_spec.
  exists (pre +:+ "/"), "s". by rewrite sapp_assoc.
Qed.

(** C4.  Area-chair assignment resolution.  For every list of user groups:
    if some group id holds the conference id, ['/Submission'] and
    ['/Area_Chair_'], the specific-assignment strategy runs, on the set of
    the integers parsed from the segment between ['/Submission'] and the
    next ['/'] of those groups; if there is no such group, the fall-back
    runs, which filters all submissions by their readers against the user's
    pool groups. *)
Theorem ac_assignment_resolution `{Hashing} `{Pickle (list Note)}
    (self : Self) (fuel : nat) (user_groups : list string) :
  let conf := conference_id self in
  let ac_groups := List.filter (Str.contains "Area_Chair") user_groups in
  ((exists g, g ∈ user_groups /\ specific_group conf g) ->
   exists assigned : gset Z,
     resolve_assigned self fuel ac_groups = specific_assignment self assigned /\
     forall n, n ∈ assigned <->
               exists g seg, g ∈ user_groups /\ specific_group conf g /\
                             Str.is_segment g seg /\ Str.int seg = Some n) /\
  (~ (exists g, g ∈ user_groups /\ specific_group conf g) ->
   exists pool : list string,
     resolve_assigned self fuel ac_groups = readers_fallback self fuel pool /\
     forall g, g ∈ pool <-> g ∈ user_groups /\ pool_group conf g).
Proof.
  intros conf ac_groups.
  destruct (classify_fold self ac_groups ∅ [] []) as (A & Hfold & HA).
  fold conf in Hfold, HA. simpl in Hfold.
  unfold resolve_assigned, classify_groups. rewrite Hfold. clear Hfold.
  split.
  - intros (g & Hg & Hs). exists A. split.
    + assert (Hin : g ∈ List.filter (is_specific conf) ac_groups).
      { apply elem_of_List_filter. split; [|by apply is_specific_spec].
        apply elem_of_List_filter. split; [done|].
        by eapply specific_is_ac_group. }
      destruct (List.filter (is_specific conf) ac_groups); [|done].
      by apply elem_of_nil in Hin.
    + intros n. rewrite HA. split.
      * intros [Hn | (g' & Hg' & Hs' & Hn)]; [by apply not_elem_of_empty in Hn|].
        apply elem_of_List_filter in Hg' as [Hg' _].
        apply is_specific_spec in Hs'.
        exists g', (paper_num_str g').
        split; [done|]. split; [done|]. split; [|done].
        apply is_segment_iff.
        destruct Hs' as (_ & [r Hr]%after_occurs & _). eauto.
      * intros (g' & seg & Hg' & Hs' & Hseg & Hn). right.
        apply is_segment_iff in Hseg as (r & _ & ->).
        exists g'. split; [|split; [by apply is_specific_spec | done]].
        apply elem_of_List_filter. split; [done|].
        by eapply specific_is_ac_group.
  - intros Hnone.
    exists (List.filter (fun g => negb (is_specific conf g) && is_pool conf g)
                        ac_groups).
    split.
    + destruct (List.filter (is_specific conf) ac_groups) as [|g l] eqn:Hf; [done|].
      exfalso. apply Hnone. exists g.
      assert (Hin : g ∈ List.filter (is_specific conf) ac_groups)
        by (rewrite Hf; apply elem_of_cons; by left).
      apply elem_of_List_filter in Hin as [Hin Hs].
      apply elem_of_List_filter in Hin as [Hin _].
      split; [done | by apply is_specific_spec].
    + intros g. unfold ac_groups.
      rewrite !elem_of_List_filter, andb_true_iff, negb_true_iff.
      rewrite is_pool_spec. split.
      * intros [[Hg _] [_ Hp]]. done.
      * intros [Hg Hp]. split; [split; [done | by eapply pool_is_ac_group]|].
        split; [|done].
        destruct (is_specific conf g) eqn:Hs; [|done].
        exfalso. apply Hnone. exists g. split; [done | by apply is_specific_spec].
Qed.

(** The groups of the specification's example. *)
Example classify_groups_example :
  let self := Stub.self Stub.no_client in
  classify_groups self ["ICLR.cc/2026/Conference/Submission7/Area_Chair_abc"]
  = ({[7%Z]}, ["ICLR.cc/2026/Conference/Submission7/Area_Chair_abc"], []) /\
  classify_groups self ["ICLR.cc/2026/Conference/Submission7/Area_Chairs"]
  = (∅, [], ["ICLR.cc/2026/Conference/Submission7/Area_Chairs"]).
Proof. split; vm_compute; reflexivity. Qed.

(** C4 at the example of the specification: the group
    [{conf}/Submission7/Area_Chair_abc] selects the specific strategy, and 7
    is assigned. *)
Lemma ac_assignment_resolution_witness :
  let self := Stub.self Stub.no_client in
  let g := "ICLR.cc/2026/Conference/Submission7/Area_Chair_abc" in
  exists assigned : gset Z,
    @resolve_assigned Stub.hashing (Stub.pickle []) self 5
      (List.filter (Str.contains "Area_Chair") [g])
    = specific_assignment self assigned /\
    7%Z ∈ assigned.
Proof.
  intros self g.
  assert (Hs : specific_group (conference_id self) g).
  { repeat split; apply contains_spec; reflexivity. }
  destruct (@ac_assignment_resolution Stub.hashing (Stub.pickle []) self 5 [g])
    as [Hspecific _].
  destruct Hspecific as (assigned & Hrun & Hmem).
  - exists g. split; [apply list_elem_of_singleton; reflexivity | exact Hs].
  - exists assigned. split; [exact Hrun|].
    apply Hmem. exists g, "7". split; [apply list_elem_of_singleton; reflexivity|].
    split; [exact Hs|]. split; [|reflexivity].
    apply is_segment_iff. exists "7/Area_Chair_abc". split; reflexivity.
Defined.

(** ** Area-chair checks and the cache *)

Lemma load_cache_cached `{Hashing} {V : Type} `{Pickle V} (self : Self)
    (key : string) (w : World) :
  exists w', _load_cache self key w = (Ok (cached self key (disk w)), w') /\
             disk w' = disk w /\ calls w' = calls w.
Proof.
  unfold _load_cache, cached.
  destruct (negb (use_cache self) || refresh_cache self); run; eauto.
  destruct (path_exists (disk w) (_get_cache_path self key)); eauto.
  destruct (read_file (disk w) (_get_cache_path self key)); simpl; eauto.
  destruct (pickle_load a); simpl; eauto.
Qed.




(** ** Average scores *)



Section ScoreFacts.
Context `{Hashing} `{Pickle (list Q)}.
Variable self : Self.
Variable info : ConferenceInfo.
Variable score_type : string.
Variable exclude_withdrawn : bool.
Variable notes : string -> list Note.
Hypothesis answers :
  forall f, get_notes_forum (openreview_client self) f = Ok (notes f).
Hypothesis valid_type : score_type = "initial" \/ score_type = "final".

Lemma score_paper_run avg_scores n m paper w :
  exists m' w',
    score_paper self info score_type exclude_withdrawn (avg_scores, n, m) paper w
    = (Ok (avg_scores
           ++ paper_average (paper_scores self info score_type exclude_withdrawn
                                          notes paper),
           S n, m'), w') /\
    disk w' = disk w.
Proof.
  unfold score_paper, paper_scores.
  destruct (exclude_withdrawn && _).
  { run. rewrite app_nil_r. eauto. }
  run. rewrite answers. simpl.
  destruct (List.filter _ (notes (forum paper))) as [|r reviews].
  { simpl. rewrite app_nil_r. eauto. }
  unfold scores_of.
  destruct valid_type as [-> | ->]; simpl.
  - destruct (RATING_EXTRACTOR info) as [ex|]; simpl.
    + destruct (extract_scores ex (r :: reviews)) as [|s l]; simpl.
      * rewrite app_nil_r. eauto.
      * eauto.
    + rewrite app_nil_r. eauto.
  - destruct (FINAL_RATING_EXTRACTOR info) as [ex|]; simpl.
    + destruct (extract_scores ex (r :: reviews)) as [|s l]; simpl.
      * rewrite app_nil_r. eauto.
      * eauto.
    + rewrite app_nil_r. eauto.
Qed.

End ScoreFacts.



(** ** Histogram bins *)

Section HistogramBins.
Local Open Scope Q_scope.












End HistogramBins.

(** ** Spreadsheet: header reconciliation *)

Section SheetFacts.
Import GSheet GSheetSpec.

Lemma headers_run (s : Sheet) :
  headers s = (Ok (header_row s), with_headers_read s).
Proof.
  unfold headers, header_row, with_headers_read. run.
  destruct s as [rows [h|] buf lg]; simpl; [done|].
  by destruct rows.
Qed.

(** Reading the property again changes nothing. *)
Lemma headers_again (s : Sheet) :
  headers (with_headers_read s)
  = (Ok (header_row s), with_headers_read s).
Proof.
  rewrite headers_run. unfold with_headers_read, header_row. simpl.
  destruct (_headers s) as [h|]; [done|].
  by destruct (local_sheet_values s).
Qed.




Lemma mem_spec (x : string) (l : list string) : Str.mem x l = true <-> x ∈ l.
Proof.
  unfold Str.mem. rewrite existsb_exists. split.
  - intros (y & Hy%list_elem_of_In & ->%String.eqb_eq). done.
  - intros Hx. exists x. split; [by apply list_elem_of_In | apply String.eqb_refl].
Qed.

Lemma index_mem (x : string) (l : list string) :
  Str.mem x l = true ->
  exists j, Str.index x l = Some j /\ l !! j = Some x.
Proof.
  induction l as [|y l IH]; simpl; [done|].
  rewrite (String.eqb_sym x y).
  destruct (String.eqb_spec y x) as [-> | Hne]; simpl.
  - intros _. by exists 0%nat.
  - intros (j & -> & Hj)%IH. by exists (S j).
Qed.



Lemma stage_nil (s : Sheet) : stage [] s = s.
Proof. unfold stage. rewrite app_nil_r. by destruct s. Qed.







End SheetFacts.

(** ** Spreadsheet: targeted cell writes *)

Section CellFacts.
Import GSheet GSheetSpec.

(** C6.  No-clobber cell write.  For a targeted update of the cell in the
    located row [python_row_idx] and the column of [col_header]: if the
    cell's current value is not empty, differs from the new value, and
    [overwrite] is not requested, no write is staged, the count of updates
    stays, and the skip is logged as a warning; if [overwrite] is requested,
    or the cell is empty, or the values are equal, the new value is staged
    for that cell and counted. *)
Theorem write_cell_no_clobber (s : Sheet) (overwrite : bool)
    (python_row_idx python_col_idx updates_count : nat)
    (col_header value current_value : string)
    (hs row : list string) :
  header_row s = Some hs ->
  Str.index col_header hs = Some python_col_idx ->
  local_sheet_values s !! python_row_idx = Some row ->
  row !! python_col_idx = Some current_value ->
  (current_value <> "" /\ current_value <> value /\ overwrite = false ->
   exists s',
     write_cell overwrite python_row_idx updates_count (col_header, value) s
     = (Ok updates_count, s') /\
     buffer s' = buffer s /\
     local_sheet_values s' = local_sheet_values s /\
     sheet_logs s' = sheet_logs s ++ [skip_record]) /\
  (overwrite = true \/ current_value = "" \/ current_value = value ->
   exists s',
     write_cell overwrite python_row_idx updates_count (col_header, value) s
     = (Ok (S updates_count), s') /\
     buffer s' = buffer s ++ [(python_row_idx, python_col_idx, value)] /\
     local_sheet_values s' = local_sheet_values s).
Proof.
  intros Hrow Hcol Hr Hc.
  assert (Hstep : forall b : bool,
    nonempty current_value && negb (String.eqb current_value value)
    && negb overwrite = b ->
    write_cell overwrite python_row_idx updates_count (col_header, value) s
    = (if b
       then (logging WARNING (message skip_record) ;;; ret updates_count)
       else ((if nonempty current_value
                 && negb (String.eqb current_value value) && overwrite
              then logging INFO "Overwriting cell at row {python_row_idx + 1}, column {col_header}. Old value: '{current_value}', New value: '{value}'"
              else ret tt) ;;;
             _set_buffer_cells python_row_idx python_col_idx value ;;;
             ret (S updates_count)))
      (with_headers_read s)).
  { intros b Hb. unfold write_cell.
    unfold bind at 1. unfold try_except. unfold bind at 1.
    rewrite headers_run, Hrow, Hcol. unfold ret at 1.
    unfold bind at 1. unfold get at 1.
    cbn [with_headers_read local_sheet_values]. rewrite Hr, Hc, Hb.
    by destruct b. }
  split.
  - intros (Hne & Hdiff & ->).
    rewrite (Hstep true).
    + run. eexists. split; [reflexivity|]. done.
    + apply String.eqb_neq in Hne, Hdiff. unfold nonempty.
      by rewrite Hne, Hdiff.
  - intros Hwrite.
    rewrite (Hstep false).
    + run. destruct (nonempty current_value && _ && overwrite); run;
        eexists; (split; [reflexivity|]); done.
    + destruct Hwrite as [-> | [-> | ->]].
      * by rewrite andb_false_r.
      * done.
      * by rewrite String.eqb_refl, andb_false_r.
Qed.

(** C6 at the example of the specification: the cell holds X and Y is
    written; without [overwrite] nothing is staged and the skip is logged,
    with [overwrite] Y is staged for the cell. *)
Lemma write_cell_no_clobber_witness :
  let s := fresh [["id"; "note"]; ["7"; "X"]] in
  (exists s', write_cell false 1 0 ("note", "Y") s = (Ok 0%nat, s') /\
              buffer s' = [] /\
              sheet_logs s' = [skip_record]) /\
  (exists s', write_cell true 1 0 ("note", "Y") s = (Ok 1%nat, s') /\
              buffer s' = [(1%nat, 1%nat, "Y")]).
Proof.
  intros s. split.
  - destruct (write_cell_no_clobber s false 1 1 0 "note" "Y" "X"
                ["id"; "note"] ["7"; "X"]) as [Hskip _]; try reflexivity.
    destruct Hskip as (s' & Hrun & Hbuf & _ & Hlog).
    + split; [discriminate|]. split; [discriminate | reflexivity].
    + exists s'. split; [exact Hrun|]. split; [exact Hbuf | exact Hlog].
  - destruct (write_cell_no_clobber s true 1 1 0 "note" "Y" "X"
                ["id"; "note"] ["7"; "X"]) as [_ Hwrite]; try reflexivity.
    destruct Hwrite as (s' & Hrun & Hbuf & _).
    + left. reflexivity.
    + exists s'. split; [exact Hrun | exact Hbuf].
Defined.

(** The same through [write_cells], the row located by its [id]. *)
Example write_cells_no_clobber_example :
  let s := fresh [["id"; "note"]; ["7"; "X"]] in
  buffer (write_cells [[("id", "7")]] [[("note", "Y")]] false s).2 = [] /\
  buffer (write_cells [[("id", "7")]] [[("note", "Y")]] true s).2
  = [(1%nat, 1%nat, "Y")] /\
  buffer (write_cells [[("id", "7")]] [[("note", "X")]] false s).2
  = [(1%nat, 1%nat, "X")].
Proof. repeat split; vm_compute; reflexivity. Qed.

(** Where every row fails a condition, the search ends with
    [StopIteration]. *)
Lemma next_matching_none (hs : option (list string))
    (where_ : list (string * string)) (rows : list (list string)) : forall i,
  Forall (fun row => all_conditions hs row where_ = Ok false) rows ->
  next_matching hs rows where_ i = Raise StopIteration.
Proof.
  induction rows as [|row rows IH]; intros i Hall; [done|].
  apply Forall_cons in Hall as [Hrow Hrows].
  simpl. rewrite Hrow. by apply IH.
Qed.

(** A pair whose conditions can be tested on every row and hold on none is
    skipped: nothing is staged, the count stays, a warning is logged. *)
Lemma write_pair_skips_unmatched (s : Sheet) (overwrite : bool) (n : nat)
    (where_ what_ : list (string * string)) :
  Forall (fun row => all_conditions (header_row s) row where_ = Ok false)
         (local_sheet_values s) ->
  exists s',
    write_pair overwrite n (where_, what_) s = (Ok n, s') /\
    buffer s' = buffer s /\
    local_sheet_values s' = local_sheet_values s /\
    header_row s' = header_row s /\
    sheet_logs s' = sheet_logs s ++ [no_row_record].
Proof.
  intros Hall. unfold write_pair.
  unfold bind at 1. unfold try_except. unfold bind at 1. unfold get at 1.
  destruct (local_sheet_values s) as [|row rows] eqn:Hrows.
  - run. eexists. split; [reflexivity|]. simpl.
    split; [done|]. split; [done|]. split; [|done]. by unfold header_row.
  - destruct where_ as [|c where_].
    + apply Forall_cons in Hall as [Hrow _]. discriminate.
    + unfold bind at 1. rewrite headers_run.
      unfold bind at 1. unfold lift.
      rewrite next_matching_none by done. run.
      eexists. split; [reflexivity|]. simpl.
      split; [done|]. split; [done|]. split; [|done].
      unfold header_row. simpl. rewrite Hrows.
      by destruct (_headers s).
Qed.

(** An update that names a column the header row lacks is skipped: nothing
    is staged for it, and the loop over the updates goes on. *)
Lemma write_cell_skips_unknown_column (s : Sheet) (overwrite : bool)
    (python_row_idx n : nat) (col_header value : string) (hs : list string) :
  header_row s = Some hs ->
  Str.index col_header hs = None ->
  exists s',
    write_cell overwrite python_row_idx n (col_header, value) s = (Ok n, s') /\
    buffer s' = buffer s /\
    local_sheet_values s' = local_sheet_values s /\
    sheet_logs s' = sheet_logs s ++ [no_column_record].
Proof.
  intros Hrow Hcol. unfold write_cell.
  unfold bind at 1. unfold try_except. unfold bind at 1.
  rewrite headers_run, Hrow, Hcol. run.
  eexists. split; [reflexivity|]. done.
Qed.

(** C10.  The code against the claim: a pair whose condition names a column
    that the header row lacks matches no row, yet it is not skipped.  The
    [ValueError] of [self.headers.index] leaves the generator, the handler
    catches [StopIteration] only, and [write_cells] ends there: the pair
    that follows, which would match, stages nothing.  The updates do catch
    that same [ValueError]: an unknown column among them is skipped and the
    next one is written. *)
Theorem write_cells_unknown_condition_column_aborts :
  let s := fresh [["id"; "note"]; ["7"; "X"]] in
  write_cells [[("paper", "7")]; [("id", "7")]]
              [[("note", "Y")]; [("note", "Z")]] true s
  = (Raise ValueError, with_headers_read s) /\
  buffer (with_headers_read s) = [] /\
  exists s',
    write_cells [[("id", "7")]] [[("nope", "Y"); ("note", "Z")]] true s
    = (Ok tt, s') /\
    buffer s' = [(1%nat, 1%nat, "Z")] /\
    no_column_record ∈ sheet_logs s'.
Proof.
  intros s. split; [vm_compute; reflexivity|]. split; [reflexivity|].
  eexists. split; [vm_compute; reflexivity|]. split; [reflexivity|].
  simpl. apply elem_of_cons. by left.
Qed.

(** What does hold of C10, on an example: a condition on a known column
    that no row meets skips its pair, and the next pair is written. *)
Example write_cells_unmatched_pair_example :
  let s := fresh [["id"; "note"]; ["7"; "X"]] in
  exists s',
    write_cells [[("id", "8")]; [("id", "7")]]
                [[("note", "Y")]; [("note", "Z")]] true s
    = (Ok tt, s') /\
    buffer s' = [(1%nat, 1%nat, "Z")] /\
    no_row_record ∈ sheet_logs s'.
Proof.
  intros s. eexists. split; [vm_compute; reflexivity|]. split; [reflexivity|].
  simpl. apply elem_of_cons. by left.
Qed.

End CellFacts.


(** * Further properties of the code *)

(** ** The cache, the fetch loops and the score loop of [histogram_scores.py] *)

Lemma with_disk_same (w : World) : with_disk (disk w) w = w.
Proof. by destruct w. Qed.

Lemma ignores_disk_keeps {A} (c : M World A) (w : World) :
  ignores_disk c -> disk (c w).2 = disk w.
Proof.
  intros Hc. specialize (Hc w (disk w)). rewrite with_disk_same in Hc.
  rewrite Hc at 1. done.
Qed.

Lemma ignores_ret {A} (a : A) : ignores_disk (ret a).
Proof. done. Qed.

Lemma ignores_raise {A} (e : Exn) : ignores_disk (raise (A := A) e).
Proof. done. Qed.

Lemma ignores_lift {A} (r : Res A) : ignores_disk (lift r).
Proof. done. Qed.

Lemma ignores_logging lv msg : ignores_disk (logging lv msg).
Proof. done. Qed.

Lemma ignores_bind {A B} (c : M World A) (k : A -> M World B) :
  ignores_disk c -> (forall a, ignores_disk (k a)) -> ignores_disk (bind c k).
Proof.
  intros Hc Hk w d. unfold bind. rewrite Hc.
  destruct (c w) as [[a|e] w']; simpl; [apply Hk | done].
Qed.

Lemma ignores_api {A} (rq : Request) (r : Res A) : ignores_disk (api rq r).
Proof. unfold api. apply ignores_bind; [done|]. intros _. apply ignores_lift. Qed.

Lemma ignores_try {A} (c : M World A) p (h : Exn -> M World A) :
  ignores_disk c -> (forall e, ignores_disk (h e)) ->
  ignores_disk (try_except c p h).
Proof.
  intros Hc Hh w d. unfold try_except. rewrite Hc.
  destruct (c w) as [[a|e] w']; simpl; [done|].
  destruct (p e); [apply Hh | done].
Qed.

Lemma bind_ret_l {S A B} (a : A) (k : A -> M S B) : bind (ret a) k = k a.
Proof. reflexivity. Qed.

Ltac ignores :=
  repeat match goal with
    | |- ignores_disk (ret _) => apply ignores_ret
    | |- ignores_disk (raise _) => apply ignores_raise
    | |- ignores_disk (lift _) => apply ignores_lift
    | |- ignores_disk (logging _ _) => apply ignores_logging
    | |- ignores_disk (api _ _) => apply ignores_api
    | |- ignores_disk (bind _ _) => apply ignores_bind; [|intros ?]
    | |- ignores_disk (try_except _ _ _) => apply ignores_try; [|intros ?]
    | |- ignores_disk (match ?x with _ => _ end) => destruct x
    | |- ignores_disk (if ?b then _ else _) => destruct b
    end.

Section DiskFacts.
Context `{Hashing} `{Pickle (list Note)} `{Pickle (list Q)}.
Variable self : Self.

Lemma load_cache_off {V : Type} `{Pickle V} (key : string) :
  use_cache self = false \/ refresh_cache self = true ->
  _load_cache (V := V) self key = ret None.
Proof.
  intros Hoff. unfold _load_cache.
  destruct Hoff as [-> | ->]; [done | by rewrite orb_true_r].
Qed.

Lemma save_cache_off {V : Type} `{Pickle V} (key : string) (v : V) :
  use_cache self = false -> _save_cache self key v = ret tt.
Proof. intros Hoff. unfold _save_cache. by rewrite Hoff. Qed.

Lemma fetch_loop_ignores (p fuel : nat) : forall offset acc,
  ignores_disk (fetch_loop self p fuel offset acc).
Proof.
  induction fuel as [|fuel IH]; intros offset acc; cbn [fetch_loop]; ignores.
  apply IH.
Qed.

Lemma author_fetch_loop_ignores (p fuel : nat) : forall offset acc,
  ignores_disk (author_fetch_loop self p fuel offset acc).
Proof.
  induction fuel as [|fuel IH]; intros offset acc; cbn [author_fetch_loop]; ignores.
  apply IH.
Qed.

Lemma fetch_assigned_ignores (nums : list Z) : forall subs,
  ignores_disk (fetch_assigned self nums subs).
Proof.
  induction nums as [|n nums IH]; intros subs; cbn [fetch_assigned]; ignores.
  apply IH.
Qed.

Lemma score_papers_ignores info score_type exclude_withdrawn submissions :
  forall st,
    ignores_disk (score_papers self info score_type exclude_withdrawn submissions st).
Proof.
  induction submissions as [|paper rest IH]; intros st; cbn [score_papers]; ignores.
  - unfold score_paper. ignores. unfold scores_of. ignores.
  - apply IH.
Qed.
End DiskFacts.

Section NoCache.
Context `{Hashing} `{Pickle (list Note)} `{Pickle (list Q)}.
Variable self : Self.
Hypothesis off : use_cache self = false.

Lemma get_all_submissions_off (p fuel : nat) :
  ignores_disk (get_all_submissions_with self p fuel).
Proof.
  unfold get_all_submissions_with.
  rewrite load_cache_off, bind_ret_l by (by left). ignores.
  - apply fetch_loop_ignores.
  - rewrite save_cache_off by done. ignores.
Qed.

Lemma resolve_assigned_off (fuel : nat) (ac_groups : list string) :
  ignores_disk (resolve_assigned self fuel ac_groups).
Proof.
  unfold resolve_assigned.
  destruct (classify_groups self ac_groups) as [[assigned specific] pool].
  destruct (_ <? _)%nat.
  - unfold specific_assignment. ignores. apply fetch_assigned_ignores.
  - unfold readers_fallback. ignores. apply get_all_submissions_off.
Qed.

Lemma get_ac_assigned_submissions_off (fuel : nat) :
  ignores_disk (get_ac_assigned_submissions self fuel).
Proof.
  unfold get_ac_assigned_submissions.
  apply ignores_bind; [ignores | intros profile_id].
  rewrite load_cache_off, bind_ret_l by (by left). ignores.
  - apply resolve_assigned_off.
  - rewrite save_cache_off by done. ignores.
Qed.

Lemma extract_average_scores_off info submissions score_type exclude_withdrawn :
  ignores_disk (extract_average_scores self info submissions score_type
                                       exclude_withdrawn).
Proof.
  unfold extract_average_scores.
  rewrite load_cache_off, bind_ret_l by (by left). ignores.
  - apply score_papers_ignores.
  - rewrite save_cache_off by done. ignores.
Qed.
End NoCache.

(** X1.  With the cache switched off ([--no-cache]), [get_all_submissions],
    [get_ac_assigned_submissions] and [extract_average_scores] neither read
    nor write the disk, whatever the API answers: on any other disk they
    return, log and request the same, and the disk they are given is the
    disk they leave. *)
Theorem no_cache_ignores_disk `{Hashing} `{Pickle (list Note)} `{Pickle (list Q)}
    (self : Self) (info : ConferenceInfo) (fuel : nat)
    (submissions : list Note) (score_type : string) (exclude_withdrawn : bool) :
  use_cache self = false ->
  ignores_disk (get_all_submissions self fuel) /\
  ignores_disk (get_ac_assigned_submissions self fuel) /\
  ignores_disk (extract_average_scores self info submissions score_type
                                       exclude_withdrawn) /\
  forall w,
    disk (get_all_submissions self fuel w).2 = disk w /\
    disk (get_ac_assigned_submissions self fuel w).2 = disk w /\
    disk (extract_average_scores self info submissions score_type
                                 exclude_withdrawn w).2 = disk w.
Proof.
  intros Hoff.
  pose proof (get_all_submissions_off self Hoff 1000 fuel) as Hall.
  pose proof (get_ac_assigned_submissions_off self Hoff fuel) as Hac.
  pose proof (extract_average_scores_off self Hoff info submissions score_type
                                         exclude_withdrawn) as Havg.
  split; [exact Hall|]. split; [exact Hac|]. split; [exact Havg|].
  intros w. split; [|split]; by apply ignores_disk_keeps.
Qed.

Lemma no_cache_ignores_disk_witness :
  let self := StubFaults.uncached Stub.no_client in
  let w := Stub.world Stub.empty_disk in
  disk (@get_all_submissions Stub.hashing (Stub.pickle []) self 3 w).2 = disk w /\
  disk (@get_ac_assigned_submissions Stub.hashing (Stub.pickle []) self 3 w).2
  = disk w.
Proof.
  intros self w.
  destruct (@no_cache_ignores_disk Stub.hashing (Stub.pickle []) (Stub.pickle [])
              self StubScores.info 3 [] "initial" false)
    as (_ & _ & _ & Hdisk).
  - reflexivity.
  - destruct (Hdisk w) as (Hall & Hac & _). split; [exact Hall | exact Hac].
Defined.

Section CacheHit.
Context `{Hashing} `{Pickle (list Note)} `{Pickle (list Q)}.
Variable self : Self.



Lemma extract_average_scores_hit info submissions score_type exclude_withdrawn
    (data : list Q) (w : World) :
  cached self (scores_cache_key self submissions score_type exclude_withdrawn)
         (disk w) = Some data ->
  exists w', extract_average_scores self info submissions score_type
                                    exclude_withdrawn w = (Ok data, w') /\
             calls w' = calls w /\ disk w' = disk w.
Proof.
  intros Hc. unfold extract_average_scores.
  fold (scores_cache_key self submissions score_type exclude_withdrawn).
  unfold bind at 1.
  destruct (load_cache_cached (V := list Q) self
              (scores_cache_key self submissions score_type exclude_withdrawn) w)
    as (w1 & -> & Hd & Hcalls).
  rewrite Hc. run. eexists. split; [reflexivity|]. done.
Qed.

End CacheHit.


Section PageError.
Context `{Hashing} `{Pickle (list Note)}.
Variable self : Self.
Variable p : nat.
Variable pages : nat -> list Note.
Variable k : nat.
Variable e : Exn.
Hypothesis positive : (0 < p)%nat.
Hypothesis full_pages :
  forall i, (i < k)%nat ->
    get_notes_page (openreview_client self) (submission_invitation self) p (i * p)
    = Ok (pages i) /\ length (pages i) = p.
Hypothesis page_fails :
  get_notes_page (openreview_client self) (submission_invitation self) p (k * p)
  = Raise e.

Let inv := submission_invitation self.

(** The first [k] pages, gathered. *)
Lemma fetch_loop_full_pages (n : nat) : forall j fuel acc w,
  (j + n <= k)%nat ->
  exists w',
    fetch_loop self p (n + fuel) (j * p) acc w
    = fetch_loop self p fuel ((j + n) * p) (acc ++ flat_map pages (seq j n)) w' /\
    disk w' = disk w /\
    calls w' = calls w ++ page_requests inv p (j * p) n.
Proof.
  induction n as [|n IH]; intros j fuel acc w Hj.
  - exists w. rewrite Nat.add_0_r, !app_nil_r. done.
  - destruct (full_pages j ltac:(lia)) as [Hpage Hlen].
    cbn [Nat.add fetch_loop]. run. rewrite Hpage.
    destruct (pages j) as [|x l] eqn:Hpj; [simpl in Hlen; lia|].
    rewrite <- Hpj in *. simpl. rewrite Hlen, Nat.ltb_irrefl.
    replace (j * p + p)%nat with (S j * p)%nat by lia.
    edestruct (IH (S j) fuel) as (w' & -> & Hd & Hc); [lia|].
    exists w'. split; [|split].
    + replace (S j + n)%nat with (j + S n)%nat by lia.
      cbn [seq flat_map]. by rewrite <- app_assoc.
    + rewrite Hd. done.
    + rewrite Hc. simpl. rewrite page_requests_S, <- app_assoc.
      simpl. do 3 f_equal. lia.
Qed.

Lemma author_fetch_loop_full_pages (n : nat) : forall j fuel acc w,
  (j + n <= k)%nat ->
  exists w',
    author_fetch_loop self p (n + fuel) (j * p) acc w
    = author_fetch_loop self p fuel ((j + n) * p)
        (acc ++ flat_map pages (seq j n)) w' /\
    disk w' = disk w /\
    calls w' = calls w ++ page_requests inv p (j * p) n.
Proof.
  induction n as [|n IH]; intros j fuel acc w Hj.
  - exists w. rewrite Nat.add_0_r, !app_nil_r. done.
  - destruct (full_pages j ltac:(lia)) as [Hpage Hlen].
    cbn [Nat.add author_fetch_loop]. run. rewrite Hpage.
    destruct (pages j) as [|x l] eqn:Hpj; [simpl in Hlen; lia|].
    rewrite <- Hpj in *. simpl. rewrite Hlen, Nat.ltb_irrefl. simpl.
    replace (j * p + p)%nat with (S j * p)%nat by lia.
    edestruct (IH (S j) fuel) as (w' & -> & Hd & Hc); [lia|].
    exists w'. split; [|split].
    + replace (S j + n)%nat with (j + S n)%nat by lia.
      cbn [seq flat_map]. by rewrite <- app_assoc.
    + rewrite Hd. done.
    + rewrite Hc. simpl. rewrite page_requests_S, <- app_assoc.
      simpl. do 3 f_equal. lia.
Qed.

(** X3.  An API error in [get_all_submissions]: when the first [k] pages
    come back full and the request for the next one raises, the exception
    leaves [get_all_submissions] (there is no handler), the pages gathered
    are lost and nothing is written to the cache. *)
Theorem get_all_submissions_page_error (fuel : nat) (w : World) :
  (k < fuel)%nat ->
  cached self ("all_submissions_" +:+ conference_id self) (disk w)
  = (None : option (list Note)) ->
  exists w',
    get_all_submissions_with self p fuel w = (Raise e, w') /\
    disk w' = disk w /\
    calls w' = calls w ++ page_requests inv p 0 (S k).
Proof.
  intros Hfuel Hmiss. unfold get_all_submissions_with. unfold bind at 1.
  destruct (load_cache_cached (V := list Note) self
              ("all_submissions_" +:+ conference_id self) w)
    as (w0 & -> & Hd0 & Hc0).
  rewrite Hmiss. unfold bind at 1. unfold logging at 1, modify at 1.
  unfold bind at 1.
  replace fuel with (k + S (fuel - S k))%nat by lia.
  match goal with |- context [fetch_loop self p _ 0 [] ?w1] =>
    destruct (fetch_loop_full_pages k 0 (S (fuel - S k)) [] w1 ltac:(lia))
      as (w2 & Hrun & Hd2 & Hc2)
  end.
  simpl in Hrun. rewrite Hrun. clear Hrun.
  cbn [fetch_loop]. run. rewrite page_fails. simpl.
  eexists. split; [reflexivity|]. simpl. split; [congruence|].
  rewrite Hc2. simpl. rewrite Hc0.
  unfold page_requests. rewrite seq_S, map_app, <- app_assoc. done.
Qed.

(** X4.  An API error in the loop of [get_author_papers_list]: when the
    first [k] pages come back full and the request for the next one raises,
    the loop ends normally with the records of those [k] pages, in order,
    and the error is logged. *)
Theorem author_fetch_loop_page_error (fuel : nat) (w : World) :
  (k < fuel)%nat ->
  exists w',
    author_fetch_loop self p fuel 0 [] w
    = (Ok (Some (flat_map pages (seq 0 k))), w') /\
    calls w' = calls w ++ page_requests inv p 0 (S k) /\
    last (logs w')
    = Some (Log ERROR "Error retrieving submissions batch at offset %d: %s").
Proof.
  intros Hfuel.
  replace fuel with (k + S (fuel - S k))%nat by lia.
  destruct (author_fetch_loop_full_pages k 0 (S (fuel - S k)) [] w ltac:(lia))
    as (w2 & Hrun & Hd2 & Hc2).
  simpl in Hrun. rewrite Hrun. clear Hrun.
  cbn [author_fetch_loop]. run. rewrite page_fails. simpl.
  eexists. split; [reflexivity|]. simpl. split.
  - rewrite Hc2. unfold page_requests. rewrite seq_S, map_app, <- app_assoc. done.
  - apply last_snoc.
Qed.
End PageError.

Lemma get_all_submissions_page_error_witness :
  let records := map (fun n => Stub.paper n []) [1; 2; 3; 4; 5]%Z in
  let self := Stub.self (StubFaults.failing_page records 2 OpenReviewException) in
  exists w',
    @get_all_submissions_with Stub.hashing (Stub.pickle []) self 2 5
      (Stub.world Stub.empty_disk)
    = (Raise OpenReviewException, w') /\
    disk w' = Stub.empty_disk /\
    calls w' = [GetNotesPage (submission_invitation self) 2 0;
                GetNotesPage (submission_invitation self) 2 2].
Proof.
  intros records self.
  apply (@get_all_submissions_page_error Stub.hashing (Stub.pickle []) self 2
           (fun i => Stub.page records 2 (i * 2)) 1 OpenReviewException).
  - lia.
  - intros i Hi. assert (i = 0%nat) as -> by lia. split; reflexivity.
  - reflexivity.
  - lia.
  - reflexivity.
Defined.

Lemma author_fetch_loop_page_error_witness :
  let records := map (fun n => Stub.paper n []) [1; 2; 3; 4; 5]%Z in
  let self := Stub.self (StubFaults.failing_page records 2 OpenReviewException) in
  exists w',
    author_fetch_loop self 2 5 0 [] (Stub.world Stub.empty_disk)
    = (Ok (Some (map (fun n => Stub.paper n []) [1; 2]%Z)), w') /\
    calls w' = [GetNotesPage (submission_invitation self) 2 0;
                GetNotesPage (submission_invitation self) 2 2] /\
    last (logs w')
    = Some (Log ERROR "Error retrieving submissions batch at offset %d: %s").
Proof.
  intros records self.
  apply (author_fetch_loop_page_error self 2
           (fun i => Stub.page records 2 (i * 2)) 1 OpenReviewException).
  - lia.
  - intros i Hi. assert (i = 0%nat) as -> by lia. split; reflexivity.
  - reflexivity.
  - lia.
Defined.

Lemma StronglySorted_le_lt (l : list Z) :
  StronglySorted Z.le l -> NoDup l -> StronglySorted Z.lt l.
Proof.
  induction 1 as [|x l Hs IH Hall]; intros Hnd; constructor.
  - apply IH. by apply NoDup_cons in Hnd as [_ ?].
  - apply NoDup_cons in Hnd as [Hx _].
    rewrite Forall_forall in Hall |- *. intros y Hy.
    specialize (Hall y Hy). assert (x <> y) by (intros ->; done). lia.
Qed.

Section Assigned.
Variable self : Self.
Let inv := submission_invitation self.

Lemma fetch_assigned_run (nums : list Z) : forall subs w,
  Forall (answers_or_lookup_error self) nums ->
  exists w',
    fetch_assigned self nums subs w
    = (Ok (subs ++ flat_map (notes_or_skip self) nums), w') /\
    disk w' = disk w /\
    calls w' = calls w ++ map (GetNotesNumber inv) nums.
Proof.
  induction nums as [|n nums IH]; intros subs w Hall.
  - exists w. simpl. rewrite !app_nil_r. done.
  - apply Forall_cons in Hall as [Hn Hall].
    cbn [fetch_assigned flat_map map]. unfold notes_or_skip at 1.
    unfold answers_or_lookup_error in Hn. fold inv in Hn |- *. run.
    destruct (get_notes_number (openreview_client self) inv n) as [l|e]; simpl.
    + destruct l as [|x l]; simpl.
      * edestruct (IH subs) as (w' & -> & Hd & Hc); [done|].
        exists w'. split; [done|]. split; [by rewrite Hd|].
        rewrite Hc. simpl. by rewrite <- app_assoc.
      * edestruct (IH (subs ++ x :: l)) as (w' & -> & Hd & Hc); [done|].
        exists w'. split; [by rewrite <- app_assoc|]. split; [by rewrite Hd|].
        rewrite Hc. simpl. by rewrite <- app_assoc.
    + rewrite Hn. simpl.
      edestruct (IH subs) as (w' & -> & Hd & Hc); [done|].
      exists w'. split; [done|]. split; [by rewrite Hd|].
      rewrite Hc. simpl. by rewrite <- app_assoc.
Qed.
End Assigned.

(** X5.  The specific-assignment strategy asks for each assigned paper
    once, in strictly increasing order of the paper numbers, and returns the
    answers in that order; a request that raises a [ValueError], [KeyError]
    or [AttributeError] is skipped with a warning and the fetch goes on. *)
Theorem specific_assignment_in_order (self : Self) (assigned : gset Z)
    (w : World) :
  (forall n, n ∈ assigned -> answers_or_lookup_error self n) ->
  exists sorted w',
    specific_assignment self assigned w
    = (Ok (Some (flat_map (notes_or_skip self) sorted)), w') /\
    calls w' = calls w
               ++ map (GetNotesNumber (submission_invitation self)) sorted /\
    StronglySorted Z.lt sorted /\
    (forall n, n ∈ sorted <-> n ∈ assigned).
Proof.
  intros Hans. set (sorted := merge_sort Z.le (elements assigned)).
  assert (Hperm : sorted ≡ₚ elements assigned) by apply merge_sort_Permutation.
  assert (Hmem : forall n, n ∈ sorted <-> n ∈ assigned).
  { intros n. rewrite Hperm. apply elem_of_elements. }
  exists sorted. unfold specific_assignment. fold sorted. run.
  match goal with |- context [fetch_assigned self sorted [] ?w0] =>
    destruct (fetch_assigned_run self sorted [] w0) as (w1 & -> & _ & Hc1)
  end.
  { apply Forall_forall. intros n Hn%Hmem. by apply Hans. }
  simpl. eexists. split; [reflexivity|]. simpl. split; [exact Hc1|]. split; [|done].
  apply StronglySorted_le_lt.
  - apply StronglySorted_merge_sort; apply _.
  - rewrite Hperm. apply NoDup_elements.
Qed.

Lemma specific_assignment_in_order_witness :
  let records := map (fun n => Stub.paper n []) [1; 2; 3]%Z in
  let self := Stub.self (StubFaults.failing_number records 2 KeyError) in
  exists sorted w',
    specific_assignment self {[3; 1; 2]}%Z (Stub.world Stub.empty_disk)
    = (Ok (Some (flat_map (notes_or_skip self) sorted)), w') /\
    calls w' = map (GetNotesNumber (submission_invitation self)) sorted /\
    StronglySorted Z.lt sorted /\
    (forall n, n ∈ sorted <-> n ∈ ({[3; 1; 2]} : gset Z))%Z.
Proof.
  intros records self.
  apply (specific_assignment_in_order self {[3; 1; 2]}%Z
           (Stub.world Stub.empty_disk)).
  intros n _. unfold answers_or_lookup_error. simpl.
  destruct (n =? 2)%Z; reflexivity.
Defined.

Lemma save_cache_calls `{Hashing} {V : Type} `{Pickle V} (self : Self)
    (key : string) (v : V) (w : World) :
  calls (_save_cache self key v w).2 = calls w.
Proof.
  unfold _save_cache. destruct (negb (use_cache self)); [done|]. run.
  destruct (open_wb (disk w) (_get_cache_path self key)); simpl; [|done].
  by destruct (pickle_dump v) as [b [e|]].
Qed.

Section ScoreRequests.
Context `{Hashing} `{Pickle (list Q)}.
Variable self : Self.
Variable info : ConferenceInfo.
Variable score_type : string.
Variable exclude_withdrawn : bool.
Variable notes : string -> list Note.
Hypothesis answers :
  forall f, get_notes_forum (openreview_client self) f = Ok (notes f).

(** The forums asked for: those of the papers that are not skipped as
    withdrawn. *)
Let requests (submissions : list Note) : list Request :=
  map (fun paper => GetNotesForum (forum paper))
      (List.filter (fun paper => negb (exclude_withdrawn && withdrawn paper))
                   submissions).

Lemma score_papers_requests submissions : forall st w r w',
  score_type = "initial" \/ score_type = "final" ->
  score_papers self info score_type exclude_withdrawn submissions st w = (r, w') ->
  calls w' = calls w ++ requests submissions.
Proof.
  intros st w r w' Htype. revert st w.
  induction submissions as [|paper rest IH]; intros [[avg n] m] w Hrun.
  - injection Hrun as _ <-. unfold requests. simpl. by rewrite app_nil_r.
  - cbn [score_papers] in Hrun. unfold bind at 1 in Hrun.
    destruct (score_paper_run self info score_type exclude_withdrawn notes
                answers Htype avg n m paper w) as (m1 & w1 & Hstep & _).
    assert (Hc1 : calls w1 = calls w ++ requests [paper]).
    { revert Hstep. unfold score_paper, requests. cbn [List.filter map].
      fold (withdrawn paper).
      destruct (exclude_withdrawn && withdrawn paper); simpl.
      - run. intros [= _ _ <-]. simpl. by rewrite app_nil_r.
      - run. rewrite answers. simpl.
        destruct (List.filter _ (notes (forum paper))) as [|x l].
        + intros [= _ _ <-]. done.
        + unfold scores_of.
          destruct Htype as [-> | ->]; simpl.
          * destruct (RATING_EXTRACTOR info) as [ex|]; simpl.
            -- destruct (extract_scores ex (x :: l)); simpl;
                 intros [= _ _ <-]; done.
            -- intros [= _ _ <-]. done.
          * destruct (FINAL_RATING_EXTRACTOR info) as [ex|]; simpl.
            -- destruct (extract_scores ex (x :: l)); simpl;
                 intros [= _ _ <-]; done.
            -- intros [= _ _ <-]. done. }
    rewrite Hstep in Hrun. apply IH in Hrun. rewrite Hrun, Hc1.
    unfold requests. cbn [List.filter].
    destruct (negb _); simpl; by rewrite <- app_assoc.
Qed.

(** X6.  On a computing run of [extract_average_scores] with
    [exclude_withdrawn] set, a withdrawn paper is skipped before its forum
    is asked for: the forums requested are exactly those of the other
    submissions, once each and in order.  Without [exclude_withdrawn] every
    submission's forum is requested. *)
Theorem withdrawn_papers_are_not_fetched (submissions : list Note) (w : World) :
  score_type = "initial" \/ score_type = "final" ->
  cached self (scores_cache_key self submissions score_type exclude_withdrawn)
         (disk w) = (None : option (list Q)) ->
  calls (extract_average_scores self info submissions score_type
                                exclude_withdrawn w).2
  = calls w
    ++ map (fun paper => GetNotesForum (forum paper))
         (List.filter (fun paper => negb (exclude_withdrawn && withdrawn paper))
                      submissions).
Proof.
  intros Htype Hmiss. unfold extract_average_scores.
  fold (scores_cache_key self submissions score_type exclude_withdrawn).
  unfold bind at 1.
  destruct (load_cache_cached (V := list Q) self
              (scores_cache_key self submissions score_type exclude_withdrawn) w)
    as (w1 & -> & _ & Hc1).
  rewrite Hmiss. unfold bind at 1. unfold logging at 1, modify at 1.
  unfold bind at 1.
  match goal with |- context [score_papers _ _ _ _ _ ?st ?w0] =>
    destruct (score_papers self info score_type exclude_withdrawn submissions st w0)
      as [[[[avg n] m]|e] w2] eqn:Hrun;
    apply (score_papers_requests _ _ _ _ _ Htype) in Hrun
  end; simpl in Hrun.
  - unfold bind at 1. unfold logging at 1, modify at 1. unfold bind at 1.
    match goal with |- context [_save_cache self ?k ?v ?w0] =>
      pose proof (save_cache_calls self k v w0) as Hs;
      destruct (_save_cache self k v w0) as [[[]|e] w3]
    end; simpl in *; rewrite Hs, Hrun, Hc1; done.
  - simpl. rewrite Hrun, Hc1. done.
Qed.
End ScoreRequests.

Lemma withdrawn_papers_are_not_fetched_witness :
  let submissions := [Stub.paper 1 []; StubFaults.withdrawn_paper 2;
                      Stub.paper 3 []] in
  calls (@extract_average_scores Stub.hashing (Stub.pickle []) StubScores.self
           StubScores.info submissions "initial" true
           (Stub.world Stub.empty_disk)).2
  = [GetNotesForum "f1"; GetNotesForum "f3"].
Proof.
  intros submissions.
  apply (@withdrawn_papers_are_not_fetched Stub.hashing (Stub.pickle [])
           StubScores.self StubScores.info "initial" true
           StubScores.forum_notes).
  - intros f. reflexivity.
  - left. reflexivity.
  - reflexivity.
Defined.

Section InvalidType.
Context `{Hashing} `{Pickle (list Q)}.
Variable self : Self.
Variable info : ConferenceInfo.
Variable score_type : string.
Variable exclude_withdrawn : bool.
Variable notes : string -> list Note.
Hypothesis answers :
  forall f, get_notes_forum (openreview_client self) f = Ok (notes f).
Hypothesis not_initial : score_type <> "initial".
Hypothesis not_final : score_type <> "final".

Lemma score_papers_invalid_type submissions : forall n m w,
  if existsb (reaches_extraction self exclude_withdrawn notes) submissions
  then exists w',
      score_papers self info score_type exclude_withdrawn submissions ([], n, m) w
      = (Raise ValueError, w')
  else exists n' w',
      score_papers self info score_type exclude_withdrawn submissions ([], n, m) w
      = (Ok ([], n', m), w').
Proof.
  induction submissions as [|paper rest IH]; intros n m w.
  - simpl. unfold ret. eauto.
  - cbn [existsb score_papers]. unfold bind at 1.
    unfold reaches_extraction at 1, reviews_of, score_paper.
    fold (withdrawn paper).
    destruct (exclude_withdrawn && withdrawn paper); simpl.
    + run. apply IH.
    + run. rewrite answers. simpl.
      destruct (List.filter _ (notes (forum paper))) as [|x l]; simpl.
      * apply IH.
      * unfold scores_of.
        apply String.eqb_neq in not_initial, not_final.
        rewrite not_initial, not_final. simpl. eauto.
Qed.

(** X7.  A [score_type] other than ['initial'] and ['final'] is found out
    late: [extract_average_scores] raises [ValueError] at the first
    submission that is not skipped and has a review, and then caches
    nothing; when no submission gets that far it returns the empty list
    without complaint. *)
Theorem invalid_score_type_raises_late (submissions : list Note) (w : World) :
  cached self (scores_cache_key self submissions score_type exclude_withdrawn)
         (disk w) = (None : option (list Q)) ->
  if existsb (reaches_extraction self exclude_withdrawn notes) submissions
  then exists w',
      extract_average_scores self info submissions score_type exclude_withdrawn w
      = (Raise ValueError, w') /\ disk w' = disk w
  else exists w',
      extract_average_scores self info submissions score_type exclude_withdrawn w
      = (Ok [], w').
Proof.
  intros Hmiss.
  pose proof (score_papers_invalid_type submissions) as Hloop.
  destruct (load_cache_cached (V := list Q) self
              (scores_cache_key self submissions score_type exclude_withdrawn) w)
    as (w1 & Hload & Hd1 & _).
  rewrite Hmiss in Hload.
  set (w0 := {| disk := disk w1;
                logs := logs w1 ++ [Log INFO "Extracting %s scores from %d submissions"];
                calls := calls w1 |}).
  specialize (Hloop 0%nat 0%nat w0).
  pose proof (ignores_disk_keeps _ w0
                (score_papers_ignores self info score_type exclude_withdrawn
                   submissions ([], 0%nat, 0%nat))) as Hd2.
  assert (Hrun : extract_average_scores self info submissions score_type
                   exclude_withdrawn w
                 = bind (score_papers self info score_type exclude_withdrawn
                           submissions ([], 0%nat, 0%nat))
                     (fun st => let '(avg_scores, _, _) := st in
                        logging INFO "Extracted scores from %d papers (out of %d processed)" ;;;
                        _save_cache self
                          (scores_cache_key self submissions score_type
                                            exclude_withdrawn) avg_scores ;;;
                        ret avg_scores) w0).
  { unfold extract_average_scores.
    fold (scores_cache_key self submissions score_type exclude_withdrawn).
    unfold bind at 1. rewrite Hload. reflexivity. }
  rewrite Hrun. clear Hrun.
  destruct (existsb _ submissions); unfold bind at 1.
  - destruct Hloop as (w' & Hrun). rewrite Hrun in Hd2 |- *. simpl in *.
    eexists. split; [reflexivity|]. congruence.
  - destruct Hloop as (n' & w' & ->).
    unfold bind at 1. unfold logging at 1, modify at 1. unfold bind at 1.
    match goal with |- context [_save_cache self ?k ?v ?w2] =>
      destruct (save_cache_returns (V := list Q) self k v w2) as (w3 & ->)
    end.
    unfold ret. eauto.
Qed.
End InvalidType.

Lemma invalid_score_type_raises_late_witness :
  (exists w',
     @extract_average_scores Stub.hashing (Stub.pickle []) StubScores.self
       StubScores.info StubScores.submissions "median" false
       (Stub.world Stub.empty_disk)
     = (Raise ValueError, w') /\ disk w' = Stub.empty_disk) /\
  (exists w',
     @extract_average_scores Stub.hashing (Stub.pickle []) StubScores.self
       StubScores.info [Stub.paper 3 []] "median" false
       (Stub.world Stub.empty_disk)
     = (Ok [], w')).
Proof.
  split.
  - apply (@invalid_score_type_raises_late Stub.hashing (Stub.pickle [])
             StubScores.self StubScores.info "median" false
             StubScores.forum_notes (fun f => eq_refl) ltac:(discriminate)
             ltac:(discriminate) StubScores.submissions
             (Stub.world Stub.empty_disk) eq_refl).
  - apply (@invalid_score_type_raises_late Stub.hashing (Stub.pickle [])
             StubScores.self StubScores.info "median" false
             StubScores.forum_notes (fun f => eq_refl) ltac:(discriminate)
             ltac:(discriminate) [Stub.paper 3 []]
             (Stub.world Stub.empty_disk) eq_refl).
Defined.

(** X8.  The key of the score cache sees the paper numbers only, and as a
    set with multiplicity: scores cached for one list of submissions are
    returned, without any request, for every list whose paper numbers are a
    permutation of the first list's, whatever the order and the content of
    its papers. *)
Theorem score_cache_ignores_order `{Hashing} `{Pickle (list Q)}
    (self : Self) (info : ConferenceInfo) (s1 s2 : list Note)
    (score_type : string) (exclude_withdrawn : bool) (data : list Q)
    (w : World) :
  map number s1 ≡ₚ map number s2 ->
  cached self (scores_cache_key self s1 score_type exclude_withdrawn) (disk w)
  = Some data ->
  scores_cache_key self s2 score_type exclude_withdrawn
  = scores_cache_key self s1 score_type exclude_withdrawn /\
  exists w',
    extract_average_scores self info s2 score_type exclude_withdrawn w
    = (Ok data, w') /\
    calls w' = calls w.
Proof.
  intros Hperm Hc.
  assert (Hkey : scores_cache_key self s2 score_type exclude_withdrawn
                 = scores_cache_key self s1 score_type exclude_withdrawn).
  { assert (Hsorted : merge_sort Z.le (map number s2)
                      = merge_sort Z.le (map number s1)).
    { apply (Sorted_unique Z.le).
      - apply Sorted_merge_sort. apply _.
      - apply Sorted_merge_sort. apply _.
      - by rewrite !merge_sort_Permutation. }
    unfold scores_cache_key. by rewrite Hsorted. }
  split; [exact Hkey|].
  rewrite <- Hkey in Hc.
  destruct (extract_average_scores_hit self info s2 score_type exclude_withdrawn
              data w Hc) as (w' & Hrun & Hcalls & _).
  eauto.
Qed.

Lemma score_cache_ignores_order_witness :
  let pk := Stub.pickle [("scores-blob", [9 # 2]%Q)] in
  let s1 := [Stub.paper 1 []; Stub.paper 2 []] in
  let s2 := [Stub.paper 2 []; Stub.paper 1 []] in
  let path := @_get_cache_path Stub.hashing StubScores.self
                (@scores_cache_key Stub.hashing StubScores.self s1 "initial" false) in
  let w := Stub.world {| files := {[ path := "scores-blob" ]}; denied := ∅ |} in
  exists w',
    @extract_average_scores Stub.hashing pk StubScores.self StubScores.info s2
      "initial" false w
    = (Ok [9 # 2]%Q, w') /\
    calls w' = [].
Proof.
  intros pk s1 s2 path w.
  destruct (@score_cache_ignores_order Stub.hashing pk StubScores.self
              StubScores.info s1 s2 "initial" false [9 # 2]%Q w)
    as (_ & Hrun).
  - apply perm_swap.
  - vm_compute. reflexivity.
  - exact Hrun.
Defined.
Section Refresh.
Context `{Hashing} `{Pickle (list Note)}.
Variable self : Self.

End Refresh.

Section HistogramBinCount.
Local Open Scope Q_scope.


End HistogramBinCount.



(** ** Row writes and reads of [utils/gsheet.py] *)

Section RowFacts.
Import GSheet GSheetSpec GSheetRows.

Lemma row_cells_from_cons (r c : nat) (h : option string)
    (hs : list (option string)) (d : gmap string string) :
  row_cells_from r c (h :: hs) d
  = match h ≫= (d !!.) with Some v => [(r, c, v)] | None => [] end
    ++ row_cells_from r (S c) hs d.
Proof.
  unfold row_cells_from. rewrite imap_cons. rewrite Nat.add_0_r.
  assert (Htail : imap ((fun j h0 => (fun v => (r, (c + j)%nat, v))
                                       <$> (h0 ≫= (d !!.))) ∘ S) hs
                  = imap (fun j h0 => (fun v => (r, (S c + j)%nat, v))
                                       <$> (h0 ≫= (d !!.))) hs).
  { apply imap_ext. intros j x _. simpl.
    by replace (c + S j)%nat with (S (c + j))%nat by lia. }
  rewrite Htail. by destruct (h ≫= (d !!.)).
Qed.

Lemma write_row_cells_run (d : gmap string string) (r : nat) :
  forall hs c s,
    write_row_cells d r hs c s = (Ok tt, stage (row_cells_from r c hs d) s).
Proof.
  induction hs as [|h hs IH]; intros c s.
  - simpl. by rewrite stage_nil.
  - cbn [write_row_cells]. rewrite row_cells_from_cons.
    destruct (h ≫= (d !!.)) as [v|]; simpl.
    + run. rewrite IH. f_equal. unfold stage. simpl. by rewrite <- app_assoc.
    + run. by rewrite IH.
Qed.

Lemma rows_cells_cons (start : nat) (hs : list (option string))
    (d : gmap string string) (rows : list (gmap string string)) :
  rows_cells start hs (d :: rows)
  = row_cells start hs d ++ rows_cells (S start) hs rows.
Proof.
  unfold rows_cells. rewrite imap_cons. simpl. rewrite Nat.add_0_r. f_equal.
  f_equal. apply imap_ext. intros j x _. simpl. f_equal. lia.
Qed.


Lemma write_batch_rows_run (l : list (option string)) (start : nat) :
  forall batch row_idx cur s,
    write_batch_rows batch (Some l) start row_idx cur s
    = (Ok (cur + length batch)%nat,
       stage (rows_cells (start + row_idx) l batch) s).
Proof.
  induction batch as [|d batch IH]; intros row_idx cur s.
  - simpl. unfold ret. rewrite Nat.add_0_r. by rewrite stage_nil.
  - cbn [write_batch_rows]. unfold bind at 1. rewrite write_row_cells_run.
    rewrite IH. rewrite rows_cells_cons. f_equal.
    + f_equal. simpl. lia.
    + unfold stage. simpl. rewrite <- app_assoc.
      by replace (S (start + row_idx)) with (start + S row_idx)%nat by lia.
Qed.

Lemma write_batch_run (l : list (option string)) (start : nat)
    (batch : list (gmap string string)) (s : Sheet) :
  exists s',
    _write_batch batch (Some l) start s = (Ok (start + length batch)%nat, s') /\
    buffer s' = buffer s ++ rows_cells start l batch /\
    local_sheet_values s' = local_sheet_values s /\
    _headers s' = _headers s.
Proof.
  unfold _write_batch. unfold bind at 1. rewrite write_batch_rows_run.
  run. rewrite Nat.add_0_r. eexists. split; [reflexivity|]. done.
Qed.


Lemma elem_of_row_cells (r : nat) (l : list (option string))
    (d : gmap string string) (r' c : nat) (v : string) :
  (r', c, v) ∈ row_cells r l d
  <-> r' = r /\ exists name, l !! c = Some (Some name) /\ d !! name = Some v.
Proof.
  unfold row_cells, row_cells_from. rewrite list_elem_of_omap. split.
  - intros (x & Hx & Hid). simpl in Hid. subst x.
    apply elem_of_lookup_imap in Hx as (j & h & Heq & Hj).
    destruct h as [name|]; simpl in Heq; [|done].
    destruct (d !! name) as [v'|] eqn:Hd; simpl in Heq; [|done].
    injection Heq as -> -> ->. eauto.
  - intros (-> & name & Hc & Hd). exists (Some (r, c, v)). split; [|done].
    apply elem_of_lookup_imap. exists c, (Some name). split; [|done].
    simpl. by rewrite Hd.
Qed.

Lemma elem_of_rows_cells (start : nat) (l : list (option string))
    (rows : list (gmap string string)) (r c : nat) (v : string) :
  (r, c, v) ∈ rows_cells start l rows
  <-> exists i d name,
        rows !! i = Some d /\ l !! c = Some (Some name) /\
        d !! name = Some v /\ r = (start + i)%nat.
Proof.
  unfold rows_cells. rewrite list_elem_of_In, in_concat. split.
  - intros (cells & Hcells & Hin).
    rewrite <- list_elem_of_In in Hcells. rewrite <- list_elem_of_In in Hin.
    apply elem_of_lookup_imap in Hcells as (i & d & -> & Hi).
    apply elem_of_row_cells in Hin as (-> & name & Hc & Hd).
    exists i, d, name. done.
  - intros (i & d & name & Hi & Hc & Hd & ->).
    exists (row_cells (start + i) l d). rewrite <- !list_elem_of_In. split.
    + apply elem_of_lookup_imap. eauto.
    + apply elem_of_row_cells. eauto.
Qed.

(** X11.  [_write_batch] under a header list: it returns the row after the
    batch, leaves the snapshot and the cached headers alone, and stages,
    row by row and column by column, exactly one cell for each header that
    is a key of the row, with the row's value.  A key that is no header is
    dropped without notice, and a header that is no key leaves its cell
    unwritten. *)
Theorem write_batch_stages_row_values (batch : list (gmap string string))
    (l : list (option string)) (start : nat) (s : Sheet) :
  exists s',
    _write_batch batch (Some l) start s = (Ok (start + length batch)%nat, s') /\
    local_sheet_values s' = local_sheet_values s /\
    _headers s' = _headers s /\
    buffer s' = buffer s ++ rows_cells start l batch /\
    forall r c v,
      (r, c, v) ∈ rows_cells start l batch
      <-> exists i d name,
            batch !! i = Some d /\ l !! c = Some (Some name) /\
            d !! name = Some v /\ r = (start + i)%nat.
Proof.
  destruct (write_batch_run l start batch s) as (s' & Hrun & Hbuf & Hrows & Hh).
  exists s'. split; [exact Hrun|]. split; [exact Hrows|]. split; [exact Hh|].
  split; [exact Hbuf|]. intros r c v. apply elem_of_rows_cells.
Qed.
End RowFacts.

Section WriteRowsFacts.
Import GSheet GSheetSpec GSheetRows.







(** X14.  A negative batch size: [write_rows] writes no row and reports
    nothing of it; it does what it does for an empty list of rows. *)
Theorem write_rows_negative_batch_size (worksheet_clear : M Sheet unit)
    (rows : list (gmap string string)) (empty_sheet : bool)
    (headers_arg : option (list string)) (write_headers : bool)
    (start_row_idx : nat) (overwrite_headers : bool) (batch_size : Z)
    (s : Sheet) :
  (batch_size < 0)%Z ->
  write_rows worksheet_clear rows empty_sheet headers_arg write_headers
             start_row_idx batch_size overwrite_headers s
  = write_rows worksheet_clear [] empty_sheet headers_arg write_headers
               start_row_idx batch_size overwrite_headers s.
Proof.
  intros Hb. unfold write_rows, bind.
  destruct (write_rows_head _ _ _ _ _ _ s) as [[[cur hs]|e] s0]; [|done].
  unfold write_rows_body, py_range.
  destruct (Z.eqb_spec batch_size 0) as [|_]; [lia|].
  destruct (Z.ltb_spec batch_size 0) as [_|]; [|lia]. done.
Qed.


(** X16.  A sheet without a header row (nothing cached, an empty
    snapshot) takes no headers unless they overwrite: [_write_headers]
    without [overwrite] raises [TypeError] and stages nothing, and so does
    [write_rows] when it writes headers without [overwrite_headers],
    whatever the headers and the rows. *)
Theorem write_headers_needs_a_header_row (worksheet_clear : M Sheet unit)
    (s : Sheet) (written : list string) (rows : list (gmap string string))
    (headers_arg : option (list string)) (start_row_idx : nat)
    (batch_size : Z) :
  header_row s = None ->
  _write_headers written start_row_idx false s = (Raise TypeError, s) /\
  write_rows worksheet_clear rows false headers_arg true start_row_idx
             batch_size false s
  = (Raise TypeError, s).
Proof.
  intros Hrow.
  assert (Hread : with_headers_read s = s).
  { unfold with_headers_read. rewrite Hrow. unfold header_row in Hrow.
    destruct s as [rows0 [h|] buf lg]; simpl in *; [done|]. done. }
  assert (Hheaders : forall names, _write_headers names start_row_idx false s
                                   = (Raise TypeError, s)).
  { intros names. unfold _write_headers. unfold bind at 1.
    rewrite headers_run, Hrow, Hread. done. }
  split; [apply Hheaders|].
  unfold write_rows, write_rows_head. rewrite bind_ret_l.
  destruct headers_arg as [h|].
  - rewrite bind_ret_l. unfold bind at 1. unfold bind at 1.
    by rewrite Hheaders.
  - unfold bind at 1. unfold bind at 1. rewrite headers_run, Hrow, Hread.
    unfold bind at 1. rewrite headers_run, ?Hrow, Hread. done.
Qed.
End WriteRowsFacts.

Section ReadFacts.
Import GSheet GSheetSpec GSheetRows.

Lemma py_dict_snoc (pairs : list (string * string)) (k v : string) :
  py_dict (pairs ++ [(k, v)]) = <[k := v]> (py_dict pairs).
Proof. unfold py_dict. by rewrite fold_left_app. Qed.

(** The dictionary of a list of pairs holds, for a key, the value of its
    last pair. *)
Lemma py_dict_lookup (pairs : list (string * string)) (k v : string) :
  py_dict pairs !! k = Some v
  <-> exists i, pairs !! i = Some (k, v) /\
                forall j v', (i < j)%nat -> pairs !! j <> Some (k, v').
Proof.
  induction pairs as [|[k0 v0] pairs IH] using rev_ind.
  - unfold py_dict. simpl. rewrite lookup_empty. split; [done|].
    by intros (i & Hi & _).
  - rewrite py_dict_snoc. destruct (decide (k0 = k)) as [->|Hne].
    + rewrite lookup_insert_eq. split.
      * intros [= ->]. exists (length pairs). split.
        -- by rewrite lookup_app_r, Nat.sub_diag by lia.
        -- intros j v' Hj Hlook. apply lookup_lt_Some in Hlook.
           rewrite length_app in Hlook. simpl in Hlook. lia.
      * intros (i & Hi & Hlast).
        destruct (decide (i = length pairs)) as [->|Hi'].
        -- rewrite lookup_app_r, Nat.sub_diag in Hi by lia. by injection Hi as ->.
        -- exfalso. apply (Hlast (length pairs) v0).
           ++ apply lookup_lt_Some in Hi. rewrite length_app in Hi.
              simpl in Hi. lia.
           ++ by rewrite lookup_app_r, Nat.sub_diag by lia.
    + rewrite lookup_insert_ne by done. rewrite IH. split.
      * intros (i & Hi & Hlast). exists i. split.
        -- by apply lookup_app_l_Some.
        -- intros j v' Hj Hlook.
           apply lookup_app_Some in Hlook as [Hlook|[_ Hlook]].
           ++ by apply (Hlast j v').
           ++ destruct (j - length pairs)%nat; simpl in Hlook; [|done].
              by injection Hlook as -> _.
      * intros (i & Hi & Hlast).
        apply lookup_app_Some in Hi as [Hi|[_ Hi]].
        -- exists i. split; [done|]. intros j v' Hj Hlook.
           apply (Hlast j v' Hj). by apply lookup_app_l_Some.
        -- destruct (i - length pairs)%nat; simpl in Hi; [|done].
           by injection Hi as -> _.
Qed.

Lemma lookup_combine {A B} (l1 : list A) (l2 : list B) (i : nat) (a : A) (b : B) :
  combine l1 l2 !! i = Some (a, b) <-> l1 !! i = Some a /\ l2 !! i = Some b.
Proof.
  revert l2 i. induction l1 as [|x l1 IH]; intros [|y l2] [|i]; simpl;
    try (split; [done | by intros [? ?]]).
  - split; [by intros [= -> ->] | by intros [[= ->] [= ->]]].
  - apply IH.
Qed.

(** The cell of [row] that the dictionary of the row holds under [k]: the
    one in the last column headed [k] that the row reaches. *)
Lemma py_dict_row (hs row : list string) (k v : string) :
  py_dict (combine hs row) !! k = Some v
  <-> exists c, hs !! c = Some k /\ row !! c = Some v /\
                forall c', (c < c')%nat -> hs !! c' = Some k -> row !! c' = None.
Proof.
  rewrite py_dict_lookup. split.
  - intros (c & Hc & Hlast). apply lookup_combine in Hc as [Hk Hv].
    exists c. split; [done|]. split; [done|]. intros c' Hlt Hk'.
    destruct (row !! c') as [v'|] eqn:Hv'; [|done]. exfalso.
    apply (Hlast c' v' Hlt). by apply lookup_combine.
  - intros (c & Hk & Hv & Hlast). exists c. split; [by apply lookup_combine|].
    intros j v' Hlt Hj. apply lookup_combine in Hj as [Hk' Hv'].
    specialize (Hlast j Hlt Hk'). congruence.
Qed.

Lemma collect_rows_cached (hs : list string) (s : Sheet) :
  header_row s = Some hs ->
  forall rows data_list,
    collect_rows rows data_list (with_headers_read s)
    = (Ok (data_list ++ map (fun row => py_dict (combine hs row)) rows),
       with_headers_read s).
Proof.
  intros Hrow. induction rows as [|row rows IH]; intros data_list.
  - simpl. by rewrite app_nil_r.
  - cbn [collect_rows]. unfold bind at 1. rewrite headers_again, Hrow.
    rewrite IH, <- app_assoc. done.
Qed.

Lemma collect_rows_run (hs : list string) (s : Sheet)
    (rows : list (list string)) :
  header_row s = Some hs ->
  exists s',
    collect_rows rows [] s
    = (Ok (map (fun row => py_dict (combine hs row)) rows), s').
Proof.
  intros Hrow. destruct rows as [|row rows].
  - by exists s.
  - cbn [collect_rows]. unfold bind at 1. rewrite headers_run, Hrow.
    rewrite (collect_rows_cached hs s Hrow). eauto.
Qed.

(** X17.  [get_data_list] after a synchronisation that succeeds, whatever
    it leaves: the call does not raise, not even on a sheet without a header
    row; it returns one dictionary for each row below the first, in order;
    and the dictionary of a row holds, under a header, the row's cell in the
    last column with that header that the row reaches.  Cells beyond the
    headers and headers beyond the row are left out.  The headers are those
    cached before the synchronisation, if any were. *)
Theorem get_data_list_reads_the_rows (sync_from_remote : M Sheet unit)
    (s s1 : Sheet) :
  sync_from_remote s = (Ok tt, s1) ->
  exists data s',
    get_data_list sync_from_remote s = (Ok data, s') /\
    length data = (length (local_sheet_values s1) - 1)%nat /\
    forall i row,
      local_sheet_values s1 !! S i = Some row ->
      exists hs d,
        header_row s1 = Some hs /\ data !! i = Some d /\
        forall k v,
          d !! k = Some v
          <-> exists c, hs !! c = Some k /\ row !! c = Some v /\
                forall c', (c < c')%nat -> hs !! c' = Some k -> row !! c' = None.
Proof.
  intros Hsync. unfold get_data_list. unfold bind at 1. rewrite Hsync.
  unfold bind at 1, get at 1. unfold bind at 1.
  destruct (header_row s1) as [hs|] eqn:Hrow.
  - destruct (collect_rows_run hs s1 (drop 1 (local_sheet_values s1)) Hrow)
      as (s2 & ->).
    run. eexists _, _. split; [reflexivity|].
    split; [by rewrite length_map, length_drop|].
    intros i row Hi. exists hs, (py_dict (combine hs row)).
    split; [done|]. split.
    + rewrite list_lookup_fmap, lookup_drop. simpl. by rewrite Hi.
    + intros k v. apply py_dict_row.
  - assert (Hnil : local_sheet_values s1 = []).
    { unfold header_row in Hrow.
      destruct (_headers s1); [done|]. by destruct (local_sheet_values s1). }
    rewrite Hnil. run. eexists _, _. split; [reflexivity|]. split; [done|].
    intros i row Hi. done.
Qed.
End ReadFacts.



Lemma write_rows_negative_batch_size_witness :
  let rows : list (gmap string string) := [list_to_map [("A", "1")]] in
  let s := GSheetSpec.fresh [] in
  GSheetRows.write_rows GSheetRows.idle rows false (Some ["A"]) true 0 (-1)
                        true s
  = GSheetRows.write_rows GSheetRows.idle [] false (Some ["A"]) true 0 (-1)
                          true s.
Proof.
  intros rows s.
  apply (write_rows_negative_batch_size GSheetRows.idle rows false (Some ["A"])
           true 0 true (-1) s).
  lia.
Defined.

Lemma write_headers_needs_a_header_row_witness :
  let s := GSheetSpec.fresh [] in
  GSheet._write_headers ["A"; "B"] 0 false s = (Raise TypeError, s) /\
  GSheetRows.write_rows GSheetRows.idle [list_to_map [("A", "1")]] false
                        (Some ["A"; "B"]) true 0 1000 false s
  = (Raise TypeError, s).
Proof.
  intros s.
  apply (write_headers_needs_a_header_row GSheetRows.idle s ["A"; "B"]
           [list_to_map [("A", "1")]] (Some ["A"; "B"]) 0 1000).
  reflexivity.
Defined.

Lemma get_data_list_reads_the_rows_witness :
  let s := GSheetSpec.fresh [["A"; "B"]; ["1"; "2"]; ["3"]] in
  exists data s',
    GSheetRows.get_data_list GSheetRows.idle s = (Ok data, s') /\
    length data = 2%nat.
Proof.
  intros s.
  destruct (get_data_list_reads_the_rows GSheetRows.idle s s)
    as (data & s' & Hrun & Hlen & _).
  - reflexivity.
  - exists data, s'. split; [exact Hrun | exact Hlen].
Defined.


(** ** Author matching and note counts of [list_author_papers.py] *)

Section AuthorMatching.
Import AuthorPapers.
Variable lower : string -> string.

Lemma lstrip_tilde_tildes (n : nat) (s : string) :
  lstrip_tilde (tildes n +:+ s) = lstrip_tilde s.
Proof. induction n as [|n IH]; sapp; [done|]. simpl. by sapp. Qed.

Lemma lstrip_tilde_spec (s : string) :
  exists n, s = tildes n +:+ lstrip_tilde s.
Proof.
  induction s as [|c s [n IH]].
  - by exists 0%nat.
  - simpl. destruct (Ascii.eqb_spec c "~") as [->|_].
    + exists (S n). simpl. sapp. by f_equal.
    + by exists 0%nat.
Qed.

(** Two identifiers with the same [lstrip('~')]: they differ in the number
    of their leading tildes only. *)
Lemma same_lstrip_tilde (s t : string) :
  lstrip_tilde s = lstrip_tilde t
  <-> exists n m core, s = tildes n +:+ core /\ t = tildes m +:+ core.
Proof.
  split.
  - intros Heq. destruct (lstrip_tilde_spec s) as [n Hs].
    destruct (lstrip_tilde_spec t) as [m Ht].
    exists n, m, (lstrip_tilde s). split; [done|]. by rewrite Heq.
  - intros (n & m & core & -> & ->). by rewrite !lstrip_tilde_tildes.
Qed.

Lemma match_authorids_spec (author_id : string) (authorids : list string) :
  match_authorids author_id (lstrip_tilde author_id) authorids = true
  <-> exists aid, aid ∈ authorids /\
        (author_id = aid \/ lstrip_tilde author_id = lstrip_tilde aid).
Proof.
  induction authorids as [|aid rest IH]; simpl.
  - split; [done|]. intros (aid & Hin & _). by apply elem_of_nil in Hin.
  - destruct (String.eqb_spec author_id aid) as [->|Hne]; simpl.
    + split; [|done]. intros _. exists aid. split; [left|]. by left.
    + destruct (String.eqb_spec (lstrip_tilde author_id) (lstrip_tilde aid))
        as [Heq|Hne'].
      * split; [|done]. intros _. exists aid. split; [left|]. by right.
      * rewrite IH. split.
        -- intros (a & Hin & Ha). exists a. split; [by right | done].
        -- intros (a & Hin & Ha). apply elem_of_cons in Hin as [->|Hin].
           ++ by destruct Ha.
           ++ eauto.
Qed.

Lemma match_authors_spec (author_id : string) (authors : list string) :
  match_authors lower author_id authors = true
  <-> exists author, author ∈ authors /\
        (lower author_id = lower author \/ Str.occurs author_id author).
Proof.
  induction authors as [|author rest IH]; simpl.
  - split; [done|]. intros (a & Hin & _). by apply elem_of_nil in Hin.
  - destruct (String.eqb_spec (lower author_id) (lower author)) as [Heq|Hne];
      simpl.
    + split; [|done]. intros _. exists author. split; [left|]. by left.
    + destruct (Str.contains author_id author) eqn:Hc.
      * split; [|done]. intros _. exists author. split; [left|].
        right. by apply contains_spec.
      * rewrite IH. split.
        -- intros (a & Hin & Ha). exists a. split; [by right | done].
        -- intros (a & Hin & Ha). apply elem_of_cons in Hin as [->|Hin].
           ++ destruct Ha as [Ha|Ha]; [done|].
              apply contains_spec in Ha. congruence.
           ++ eauto.
Qed.

(** X18.  Who counts as an author in [get_author_papers_list]: the paper
    lists an author id that is the identifier up to leading tildes, or an
    author name that is the identifier up to case or that contains the
    identifier as a substring.  So the empty identifier matches every paper
    that lists an author. *)
Theorem is_author_matches_loosely (author_id : string)
    (authorids authors : list string) :
  (is_author lower author_id authorids authors = true
   <-> (exists aid, aid ∈ authorids /\
          exists n m core, author_id = tildes n +:+ core /\
                           aid = tildes m +:+ core) \/
       (exists author, author ∈ authors /\
          (lower author_id = lower author \/
           exists pre post, author = pre +:+ author_id +:+ post))) /\
  (authors <> [] -> is_author lower "" authorids authors = true).
Proof.
  assert (Hiff : is_author lower author_id authorids authors = true
            <-> (exists aid, aid ∈ authorids /\
                   (author_id = aid \/
                    lstrip_tilde author_id = lstrip_tilde aid)) \/
                (exists author, author ∈ authors /\
                   (lower author_id = lower author \/
                    Str.occurs author_id author))).
  { rewrite <- match_authorids_spec, <- match_authors_spec.
    unfold is_author.
    assert (Hids : match authorids with
                   | [] => false
                   | _ :: _ => match_authorids author_id
                                 (lstrip_tilde author_id) authorids
                   end
                   = match_authorids author_id (lstrip_tilde author_id)
                                     authorids) by (by destruct authorids).
    rewrite Hids.
    destruct (match_authorids author_id (lstrip_tilde author_id) authorids);
      simpl; [split; [by left | done]|].
    destruct authors as [|a authors']; simpl; intuition discriminate. }
  split.
  - rewrite Hiff. unfold Str.occurs. split.
    + intros [(aid & Hin & Ha)|Hname]; [left|by right].
      exists aid. split; [done|]. apply same_lstrip_tilde.
      by destruct Ha as [->|Ha].
    + intros [(aid & Hin & Ha)|Hname]; [left|by right].
      exists aid. split; [done|]. right. by apply same_lstrip_tilde.
  - intros Hne. specialize (Hiff). destruct authors as [|a rest]; [done|].
    unfold is_author.
    assert (Hnames : match_authors lower "" (a :: rest) = true).
    { assert (Hempty : Str.contains "" a = true).
      { apply contains_spec. by exists "", a. }
      simpl. by rewrite Hempty, orb_true_r. }
    destruct (match authorids with
              | [] => false
              | _ :: _ => match_authorids "" (lstrip_tilde "") authorids
              end); simpl; [done | exact Hnames].
Qed.
End AuthorMatching.

Section NoteCountFacts.
Import AuthorPapers.
Context {N : Type}.
Variable note_extractors : list (string * (N -> bool)).
Hypothesis distinct_keys : NoDup (map fst note_extractors).

Lemma count_key_inj (k1 k2 : string) : count_key k1 = count_key k2 -> k1 = k2.
Proof.
  unfold count_key. intros Heq.
  assert (Hlen : String.length k1 = String.length k2).
  { apply (f_equal String.length) in Heq. rewrite !slength_app in Heq. lia. }
  by destruct (sapp_same_length _ _ _ _ Heq Hlen).
Qed.

Lemma sum_values_insert_new (d : gmap string Z) (k : string) (x : Z) :
  d !! k = None -> sum_values (<[k := x]> d) = (x + sum_values d)%Z.
Proof.
  intros Hk. unfold sum_values. rewrite map_fold_insert_L; [done| |done].
  intros. lia.
Qed.

Lemma sum_values_update (d : gmap string Z) (k : string) (n x : Z) :
  d !! k = Some n -> sum_values (<[k := x]> d) = (x - n + sum_values d)%Z.
Proof.
  intros Hk.
  rewrite <- (insert_delete_eq d k x).
  rewrite sum_values_insert_new by apply lookup_delete_eq.
  rewrite <- (insert_id d k n Hk) at 2.
  rewrite <- (insert_delete_eq d k n).
  rewrite sum_values_insert_new by apply lookup_delete_eq. lia.
Qed.

(** Whether an extractor among [extractors] counts [note] under [key]. *)
Let counts_under (extractors : list (string * (N -> bool))) (note : N)
    (key : string) : bool :=
  existsb (fun kv => String.eqb (count_key kv.1) key && kv.2 note) extractors.

Let b2z (b : bool) : Z := if b then 1%Z else 0%Z.

Let hits_of (extractors : list (string * (N -> bool))) (note : N) : Z :=
  Z.of_nat (length (List.filter (fun kv => kv.2 note) extractors)).

Lemma counts_under_fresh (extractors : list (string * (N -> bool))) (note : N)
    (k : string) :
  k ∉ map fst extractors -> counts_under extractors note (count_key k) = false.
Proof.
  intros Hk. unfold counts_under. apply not_true_iff_false. intros Hex.
  apply existsb_exists in Hex as ([k' ex] & Hin & Htest).
  apply andb_true_iff in Htest as [Hkey _].
  apply String.eqb_eq, count_key_inj in Hkey. simpl in Hkey. subst k'.
  apply Hk. apply list_elem_of_In in Hin.
  by apply (list_elem_of_fmap_2 fst) in Hin.
Qed.

Lemma count_note_run (note : N) (extractors : list (string * (N -> bool))) :
  forall d,
    NoDup (map fst extractors) ->
    (forall k ex, (k, ex) ∈ extractors -> is_Some (d !! count_key k)) ->
    exists d',
      count_note extractors note d = Ok d' /\
      (forall key, d' !! key
                   = (fun z => (z + b2z (counts_under extractors note key))%Z)
                     <$> d !! key) /\
      sum_values d' = (sum_values d + hits_of extractors note)%Z.
Proof.
  induction extractors as [|[k ex] rest IH]; intros d Hnd Hdom.
  - exists d. split; [done|]. split.
    + intros key. simpl. destruct (d !! key); simpl; [f_equal; lia | done].
    + unfold hits_of. simpl. lia.
  - apply NoDup_cons in Hnd as [Hk Hnd]. cbn [count_note].
    destruct (ex note) eqn:Hex.
    + destruct (Hdom k ex ltac:(left)) as [n Hn]. rewrite Hn.
      destruct (IH (<[count_key k := (n + 1)%Z]> d) Hnd) as (d' & -> & Hlook & Hsum).
      { intros k' ex' Hin. destruct (decide (count_key k' = count_key k)) as [->|Hne].
        - rewrite lookup_insert_eq. eauto.
        - rewrite lookup_insert_ne by done. apply (Hdom k' ex'). by right. }
      exists d'. split; [done|]. split.
      * intros key. rewrite Hlook. unfold counts_under at 2. cbn [existsb fst snd].
        rewrite Hex, andb_true_r. fold (counts_under rest note key).
        destruct (String.eqb_spec (count_key k) key) as [<-|Hne].
        -- rewrite lookup_insert_eq, Hn, counts_under_fresh by done. simpl.
           f_equal. lia.
        -- by rewrite lookup_insert_ne.
      * rewrite Hsum, (sum_values_update _ _ n) by done.
        unfold hits_of. cbn [List.filter snd]. rewrite Hex. simpl length. lia.
    + destruct (IH d Hnd) as (d' & -> & Hlook & Hsum).
      { intros k' ex' Hin. apply (Hdom k' ex'). by right. }
      exists d'. split; [done|]. split.
      * intros key. rewrite Hlook. unfold counts_under at 2. cbn [existsb fst snd].
        by rewrite Hex, andb_false_r.
      * rewrite Hsum. unfold hits_of. cbn [List.filter snd]. by rewrite Hex.
Qed.

Let total (f : N -> Z) (notes : list N) : Z := foldr (fun n acc => (f n + acc)%Z) 0%Z notes.

Lemma count_notes_run (notes : list N) :
  forall d,
    (forall k ex, (k, ex) ∈ note_extractors -> is_Some (d !! count_key k)) ->
    exists d',
      count_notes note_extractors notes d = Ok d' /\
      (forall key, d' !! key
                   = (fun z => (z + total (fun n => b2z (counts_under note_extractors n key))
                                          notes)%Z)
                     <$> d !! key) /\
      sum_values d' = (sum_values d + total (hits note_extractors) notes)%Z.
Proof.
  induction notes as [|note notes IH]; intros d Hdom.
  - exists d. split; [done|]. split.
    + intros key. simpl. destruct (d !! key); simpl; [f_equal; lia | done].
    + simpl. lia.
  - cbn [count_notes].
    destruct (count_note_run note note_extractors d distinct_keys Hdom)
      as (d1 & -> & Hlook1 & Hsum1).
    destruct (IH d1) as (d' & -> & Hlook & Hsum).
    { intros k ex Hin. rewrite Hlook1.
      destruct (Hdom k ex Hin) as [n ->]. simpl. eauto. }
    exists d'. split; [done|]. split.
    + intros key. rewrite Hlook, Hlook1.
      destruct (d !! key); simpl; [f_equal; lia | done].
    + rewrite Hsum, Hsum1. simpl. unfold hits, hits_of. lia.
Qed.

Lemma init_counts_snoc (extractors : list (string * (N -> bool)))
    (kv : string * (N -> bool)) :
  init_counts (extractors ++ [kv])
  = <[count_key kv.1 := 0%Z]> (init_counts extractors).
Proof. unfold init_counts. by rewrite fold_left_app. Qed.

Lemma init_counts_spec (extractors : list (string * (N -> bool))) :
  (forall key, init_counts extractors !! key
               = if decide (key ∈ map (fun kv => count_key kv.1) extractors)
                 then Some 0%Z else None) /\
  sum_values (init_counts extractors) = 0%Z.
Proof.
  induction extractors as [|kv extractors [IHl IHs]] using rev_ind.
  - split; [|done]. intros key. rewrite decide_False by apply not_elem_of_nil.
    apply lookup_empty.
  - rewrite init_counts_snoc. split.
    + intros key. rewrite map_app. simpl.
      destruct (decide (count_key kv.1 = key)) as [<-|Hne].
      * rewrite lookup_insert_eq. rewrite decide_True; [done|].
        apply elem_of_app. right. by left.
      * rewrite lookup_insert_ne, IHl by done.
        destruct (decide (key ∈ map _ extractors)) as [Hin|Hout].
        -- rewrite decide_True; [done|]. apply elem_of_app. by left.
        -- rewrite decide_False; [done|]. intros Hin.
           apply elem_of_app in Hin as [Hin|Hin]; [done|].
           apply list_elem_of_singleton in Hin. done.
    + destruct (init_counts extractors !! count_key kv.1) as [n|] eqn:Hk.
      * rewrite (sum_values_update _ _ n) by done.
        rewrite IHl in Hk. destruct (decide _); [|done].
        injection Hk as <-. lia.
      * rewrite sum_values_insert_new by done. lia.
Qed.

Lemma counts_under_own (k : string) (ex : N -> bool) (note : N) :
  (k, ex) ∈ note_extractors ->
  counts_under note_extractors note (count_key k) = ex note.
Proof.
  revert distinct_keys. clear. 
  induction note_extractors as [|[k' ex'] rest IH]; intros Hnd Hin.
  - by apply elem_of_nil in Hin.
  - apply NoDup_cons in Hnd as [Hk' Hnd].
    unfold counts_under. cbn [existsb fst snd].
    fold (counts_under rest note (count_key k)).
    apply elem_of_cons in Hin as [[= <- <-]|Hin].
    + rewrite String.eqb_refl. simpl.
      rewrite counts_under_fresh by done. by rewrite orb_false_r.
    + rewrite IH by done.
      destruct (String.eqb_spec (count_key k') (count_key k)) as [Heq|_];
        [|done].
      apply count_key_inj in Heq. subst k'. exfalso. apply Hk'.
      by apply (list_elem_of_fmap_2 fst) in Hin.
Qed.

Lemma total_accepted (ex : N -> bool) (notes : list N) :
  total (fun n => b2z (ex n)) notes = accepted ex notes.
Proof.
  unfold accepted. induction notes as [|n notes IH]; [done|].
  simpl. rewrite IH. destruct (ex n); simpl; lia.
Qed.

Lemma total_exclusive (notes : list N) :
  (forall note, note ∈ notes -> (hits note_extractors note <= 1)%Z) ->
  (Z.of_nat (length notes) - total (hits note_extractors) notes)%Z
  = accepted (fun note => (hits note_extractors note =? 0)%Z) notes.
Proof.
  unfold accepted. induction notes as [|n notes IH]; intros Hex; [done|].
  assert (Hn : (0 <= hits note_extractors n <= 1)%Z).
  { split; [unfold hits; lia|]. apply Hex. by left. }
  specialize (IH ltac:(intros note Hin; apply Hex; by right)).
  unfold total in *. cbn [foldr List.filter length] in *.
  destruct (Z.eqb_spec (hits note_extractors n) 0) as [H0|H0];
    cbn [length]; lia.
Qed.

(** The counting, run: what it returns under each key. *)
Lemma note_counts_formula (forum_notes : list N) :
  exists counts,
    note_counts note_extractors forum_notes = Ok counts /\
    (forall k ex, (k, ex) ∈ note_extractors -> k <> "others" ->
                  counts !! count_key k = Some (accepted ex forum_notes)) /\
    counts !! "others_count"
    = Some (foldr (fun note acc => (1 - hits note_extractors note + acc)%Z)
                  0%Z forum_notes) /\
    ((forall note, note ∈ forum_notes -> (hits note_extractors note <= 1)%Z) ->
     counts !! "others_count"
     = Some (accepted (fun note => (hits note_extractors note =? 0)%Z)
                      forum_notes)).
Proof.
  destruct (init_counts_spec note_extractors) as [Hinit Hzero].
  destruct (count_notes_run forum_notes (init_counts note_extractors))
    as (d & Hrun & Hlook & Hsum).
  { intros k ex Hin. rewrite Hinit, decide_True; [eauto|].
    apply (list_elem_of_fmap_2 (fun kv => count_key kv.1)) in Hin. done. }
  unfold note_counts. rewrite Hrun. eexists. split; [reflexivity|].
  assert (Hothers : (Z.of_nat (length forum_notes) - sum_values d)%Z
                    = foldr (fun note acc => (1 - hits note_extractors note + acc)%Z)
                            0%Z forum_notes).
  { rewrite Hsum, Hzero. clear. induction forum_notes as [|n notes IH]; [done|].
    unfold total in *. cbn [foldr length] in *. lia. }
  split; [|split].
  - intros k ex Hin Hk.
    rewrite lookup_insert_ne.
    2:{ change "others_count" with (count_key "others"). intros Heq.
        apply count_key_inj in Heq. done. }
    rewrite Hlook, Hinit, decide_True.
    2:{ apply (list_elem_of_fmap_2 (fun kv => count_key kv.1)) in Hin. done. }
    simpl. f_equal. rewrite <- total_accepted. rewrite Z.add_0_l.
    clear -Hin distinct_keys. induction forum_notes as [|n notes IH]; [done|].
    unfold total in *. cbn [foldr]. rewrite IH.
    by rewrite (counts_under_own k ex) by done.
  - rewrite lookup_insert_eq. by rewrite Hothers.
  - intros Hex. rewrite lookup_insert_eq. f_equal.
    rewrite <- (total_exclusive forum_notes Hex). f_equal. by rewrite Hsum, Hzero.
Qed.

(** X19.  The note counts of a paper (the keys of [note_extractors] are
    distinct, as those of a dictionary are).  The counting raises no
    [KeyError]; under [key + '_count'] stands the number of forum notes
    that the extractor of [key] accepts; and ['others_count'] is the number
    of notes minus the number of acceptances, a note counting once for each
    extractor that accepts it.  So ['others_count'] is the number of notes
    that no extractor accepts when no note is accepted by two extractors,
    and it is too small by one for each further acceptance otherwise. *)
Theorem note_counts_tally (forum_notes : list N) :
  exists counts,
    note_counts note_extractors forum_notes = Ok counts /\
    (forall k ex, (k, ex) ∈ note_extractors -> k <> "others" ->
                  counts !! count_key k = Some (accepted ex forum_notes)) /\
    counts !! "others_count"
    = Some (foldr (fun note acc => (1 - hits note_extractors note + acc)%Z)
                  0%Z forum_notes) /\
    ((forall note, note ∈ forum_notes -> (hits note_extractors note <= 1)%Z) ->
     counts !! "others_count"
     = Some (accepted (fun note => (hits note_extractors note =? 0)%Z)
                      forum_notes)).
Proof. apply note_counts_formula. Qed.
End NoteCountFacts.

Lemma is_author_matches_loosely_witness :
  AuthorPapers.is_author (fun s => s) "" ["~Bob1"] ["Bob"] = true.
Proof.
  apply (proj2 (is_author_matches_loosely (fun s => s) "" ["~Bob1"] ["Bob"])).
  discriminate.
Defined.

Lemma note_counts_tally_witness :
  let extractors : list (string * (nat -> bool)) :=
    [("review", Nat.even); ("late", fun n => (3 <? n)%nat)] in
  exists counts,
    AuthorPapers.note_counts extractors [1; 2; 4; 5]%nat = Ok counts /\
    counts !! "review_count" = Some 2%Z /\
    counts !! "others_count" = Some 0%Z.
Proof.
  intros extractors.
  destruct (note_counts_tally extractors) with (forum_notes := [1; 2; 4; 5]%nat)
    as (counts & Hrun & Hkeys & Hothers & _).
  - simpl. apply NoDup_cons. split.
    + rewrite list_elem_of_singleton. discriminate.
    + apply NoDup_singleton.
  - exists counts. split; [exact Hrun|]. split; [|exact Hothers].
    apply (Hkeys "review" Nat.even); [left | discriminate].
Defined.


(** ** The row that [write_cells] updates *)

Section MatchFacts.
Import GSheet GSheetSpec GSheetMatch.

Lemma index_bound (x : string) (l : list string) (j : nat) :
  Str.index x l = Some j -> (j < length l)%nat.
Proof.
  revert j. induction l as [|y l IH]; intros j; simpl; [done|].
  destruct (String.eqb y x).
  - intros [= <-]. lia.
  - destruct (Str.index x l) as [j'|]; simpl; [|done].
    intros [= <-]. specialize (IH j' eq_refl). lia.
Qed.

Lemma all_conditions_testable (hs row : list string)
    (where_ : list (string * string)) :
  Forall (fun kv => kv.1 ∈ hs) where_ -> (length hs <= length row)%nat ->
  exists b, all_conditions (Some hs) row where_ = Ok b /\
            (b = true <-> satisfies hs row where_).
Proof.
  intros Hkeys Hwide. unfold satisfies.
  induction where_ as [|[k v] where_ IH].
  - exists true. split; [done|]. split; [by constructor | done].
  - apply Forall_cons in Hkeys as [Hk Hkeys]. simpl in Hk.
    apply mem_spec, index_mem in Hk as (c & Hc & _).
    pose proof (index_bound _ _ _ Hc) as Hlt.
    destruct (lookup_lt_is_Some_2 row c ltac:(lia)) as [cell Hcell].
    cbn [all_conditions]. rewrite Hc, Hcell.
    destruct (String.eqb_spec cell v) as [->|Hne].
    + destruct (IH Hkeys) as (b & -> & Hb). exists b. split; [done|].
      rewrite Hb. split.
      * intros Hrest. constructor; [|done]. simpl. eauto.
      * intros Hall. by apply Forall_cons in Hall as [_ Hrest].
    + exists false. split; [done|]. split; [done|].
      intros Hall. apply Forall_cons in Hall as [(c' & Hc' & Hcell') _].
      simpl in *. congruence.
Qed.

Lemma next_matching_first (hs : list string) (where_ : list (string * string)) :
  Forall (fun kv => kv.1 ∈ hs) where_ ->
  forall rows i row j,
    Forall (fun row => (length hs <= length row)%nat) rows ->
    rows !! i = Some row ->
    satisfies hs row where_ ->
    (forall i' row', (i' < i)%nat -> rows !! i' = Some row' ->
                     ~ satisfies hs row' where_) ->
    next_matching (Some hs) rows where_ j = Ok (j + i)%nat.
Proof.
  intros Hkeys. induction rows as [|r rows IH]; intros i row j Hwide Hi Hsat Hfirst;
    [done|].
  apply Forall_cons in Hwide as [Hr Hwide]. cbn [next_matching].
  destruct (all_conditions_testable hs r where_ Hkeys Hr) as (b & -> & Hb).
  destruct i as [|i].
  - injection Hi as ->. apply Hb in Hsat. subst b. by rewrite Nat.add_0_r.
  - destruct b.
    + exfalso. apply (Hfirst 0%nat r); [lia | done | by apply Hb].
    + rewrite (IH i row (S j)); [f_equal; lia | done | done | done |].
      intros i' row' Hlt Hi'. apply (Hfirst (S i') row'); [lia | done].
Qed.

(** X20.  How [write_cells] finds the row of a pair, where the conditions
    can be tested (their keys are headers, no row is shorter than the header
    row): the updates go to the first row from the top that meets every
    condition, the header row included, which is the row 0 of the snapshot;
    without any condition that is the header row itself. *)
Theorem write_cells_first_matching_row (s : Sheet) (overwrite : bool)
    (updates_count : nat) (where_ what_ : list (string * string))
    (hs row : list string) (i : nat) :
  header_row s = Some hs ->
  testable hs (local_sheet_values s) where_ ->
  local_sheet_values s !! i = Some row ->
  satisfies hs row where_ ->
  (forall i' row', (i' < i)%nat -> local_sheet_values s !! i' = Some row' ->
                   ~ satisfies hs row' where_) ->
  write_pair overwrite updates_count (where_, what_) s
  = write_updates overwrite i what_ updates_count
      (match where_ with [] => s | _ :: _ => with_headers_read s end) /\
  (where_ = [] -> i = 0%nat).
Proof.
  intros Hrow [Hkeys Hwide] Hi Hsat Hfirst.
  assert (Hempty : where_ = [] -> i = 0%nat).
  { intros ->. destruct i as [|i]; [done|]. exfalso.
    destruct (lookup_lt_is_Some_2 (local_sheet_values s) 0%nat) as [r0 Hr0].
    { apply lookup_lt_Some in Hi. lia. }
    apply (Hfirst 0%nat r0); [lia | done | by constructor]. }
  split; [|exact Hempty].
  unfold write_pair.
  unfold bind at 1. unfold try_except. unfold bind at 1. unfold get at 1.
  destruct (local_sheet_values s) as [|r0 rows] eqn:Hrows; [done|].
  destruct where_ as [|c where_].
  - rewrite (Hempty eq_refl). done.
  - unfold bind at 1. rewrite headers_run, Hrow.
    unfold bind at 1. unfold lift.
    rewrite (next_matching_first hs (c :: where_) Hkeys (r0 :: rows) i row 0)
      by done.
    done.
Qed.
End MatchFacts.

Lemma write_cells_first_matching_row_witness :
  let s := GSheetSpec.fresh [["id"; "note"]; ["7"; "X"]; ["id"; ""]] in
  GSheet.write_pair false 0 ([("id", "id")], [("note", "seen")]) s
  = GSheet.write_updates false 0 [("note", "seen")] 0
      (GSheetSpec.with_headers_read s).
Proof.
  intros s.
  apply (write_cells_first_matching_row s false 0 [("id", "id")]
           [("note", "seen")] ["id"; "note"] ["id"; "note"] 0).
  - reflexivity.
  - split.
    + repeat constructor.
    + repeat constructor.
  - reflexivity.
  - constructor; [|constructor]. exists 0%nat. split; reflexivity.
  - intros i' row' Hlt. lia.
Defined.


(** ** What the writers keep of a sheet *)

Section KeepFacts.
Import GSheet GSheetSpec GSheetRows GSheetKeeps.























End KeepFacts.


(** ** The note counts of ICLR 2026 *)

Section ICLRNotes.
Import AuthorPapers ConferenceNotes.

Lemma NOTE_EXTRACTORS_distinct : NoDup (map fst NOTE_EXTRACTORS).
Proof.
  apply (@bool_decide_unpack _ (NoDup_dec _)). vm_compute. exact I.
Qed.

(** An acceptance by [final_justification] comes on top of one by
    [review]. *)
Lemma final_justification_hits_twice (note : ForumNote) :
  (1 - hits NOTE_EXTRACTORS note
   + (if final_justification note then 1 else 0)
   <= if (hits NOTE_EXTRACTORS note =? 0)%Z then 1 else 0)%Z.
Proof.
  unfold hits, NOTE_EXTRACTORS. cbn [List.filter snd].
  unfold final_justification, review.
  destruct (invited "Official_Review" note);
    destruct (has_key "final_justification" note);
    destruct (other_comment note); destruct (discussion_comment note);
    destruct (rebuttal note); destruct (rebuttal_acknowledgement note);
    destruct (ac_letter_author note); destruct (ac_letter_ac note);
    vm_compute; congruence.
Qed.

(** X22.  The note counts under the extractors of ICLR 2026 (and of
    NeurIPS 2025).  A note that [final_justification] accepts is a review,
    and an official comment is accepted by exactly one of [other_comment]
    and [discussion_comment].  So the counting does not fail, and
    ['others_count'] stays below the number of notes that no extractor
    accepts by at least the number of reviews with a final justification. *)
Theorem iclr_others_count_falls_short (forum_notes : list ForumNote) :
  (forall note, implb (final_justification note) (review note) = true) /\
  (forall note, xorb (other_comment note) (discussion_comment note)
                = invited "Official_Comment" note) /\
  exists counts others,
    note_counts NOTE_EXTRACTORS forum_notes = Ok counts /\
    counts !! "review_count" = Some (accepted review forum_notes) /\
    counts !! "final_justification_count"
    = Some (accepted final_justification forum_notes) /\
    counts !! "others_count" = Some others /\
    (others + accepted final_justification forum_notes
     <= accepted (fun note => (hits NOTE_EXTRACTORS note =? 0)%Z) forum_notes)%Z.
Proof.
  split; [|split].
  - intros note. unfold final_justification, review.
    by destruct (has_key _ note), (invited _ note).
  - intros note. unfold other_comment, discussion_comment.
    destruct (invited "Official_Comment" note); simpl; [|done].
    by destruct (some_role "Reviewer" _), (some_role "Author" _).
  - destruct (note_counts_formula NOTE_EXTRACTORS NOTE_EXTRACTORS_distinct
                forum_notes) as (counts & Hrun & Hkeys & Hothers & _).
    exists counts. eexists. split; [exact Hrun|].
    split; [apply (Hkeys "review" review); [left | discriminate]|].
    split; [apply (Hkeys "final_justification" final_justification);
            [right; left | discriminate]|].
    split; [exact Hothers|].
    unfold accepted. clear.
    induction forum_notes as [|note notes IH]; [done|].
    pose proof (final_justification_hits_twice note) as Hnote.
    cbn [foldr List.filter].
    destruct (final_justification note);
      destruct (hits NOTE_EXTRACTORS note =? 0)%Z; cbn [length]; lia.
Qed.
End ICLRNotes.
